(** * Net-worth tracker: growth analytics, chart series and account mutations

    A shallow embedding of
    - [app/composables/useGrowth.ts]   (calculateGrowth and its three wrappers),
    - [app/components/dashboard/NetWorthCard.vue]   (the chartData series),
    - the accounts composable   (getBalanceHistory, addAccount, updateBalance,
      updateAccount, deleteAccount),
    together with the parts of the JavaScript platform these functions call
    (Number arithmetic, string comparison, [padStart], [slice], [parseInt],
    [Date] getters and [toISOString]).

    JavaScript Numbers are IEEE 754 binary64 values and are modelled by the
    kernel's primitive floats; integral quantities that the platform itself
    defines over mathematical integers (time values, years, months) are [Z]. *)

From Stdlib Require Import ZArith List String Ascii Bool Lia DecimalString Floats
  Sorted.
Import ListNotations.

Local Open Scope string_scope.
Local Open Scope Z_scope.

(** A decimal literal denotes the nearest binary64 value, as it does in
    JavaScript. *)
Set Warnings "-inexact-float".

(* ================================================================== *)
(** ** JavaScript strings and numbers *)
(* ================================================================== *)

Module JS.

(** A Number; [NaN] is [PrimFloat.nan]. *)
Definition number := float.

(** The global [isNaN] applied to a Number. *)
Definition isNaN (x : number) : bool := PrimFloat.is_nan x.

(** [x !== 0] on Numbers: IEEE inequality, so [-0 !== 0] is false and
    [NaN !== 0] is true. *)
Definition strict_ne_zero (x : number) : bool := negb (PrimFloat.eqb x 0%float).

(** The Number value of a mathematical integer (round to nearest, ties to
    even). *)
Definition of_Z (z : Z) : number :=
  SF2Prim (SpecFloat.binary_normalize FloatOps.prec FloatOps.emax z 0 false).

(** [a >= b] on strings: code-unit lexicographic order, i.e. not [a < b]. *)
Definition str_ge (a b : string) : bool := negb (String.ltb a b).

(** [String(n)] for an integral Number [n] (plain decimal, leading minus
    sign), and for [NaN], which is modelled by [None]. *)
Definition string_of_integral (n : option Z) : string :=
  match n with
  | Some z => NilZero.string_of_int (Z.to_int z)
  | None => "NaN"
  end.

(** [n] copies of a one-character filler. *)
Fixpoint repeat_char (c : ascii) (n : nat) : string :=
  match n with
  | O => EmptyString
  | S k => String c (repeat_char c k)
  end.

(** [s.padStart(targetLength, c)] for a one-character filler [c]. *)
Definition padStart (s : string) (targetLength : nat) (c : ascii) : string :=
  repeat_char c (targetLength - String.length s) ++ s.

(** [s.slice(0, n)]. *)
Definition slice0 (n : nat) (s : string) : string := substring 0 n s.

(** Truthiness of a string: only the empty string is falsy. *)
Definition truthy (s : string) : bool :=
  match s with
  | EmptyString => false
  | String _ _ => true
  end.

(** Code units are modelled by [ascii], so a string ranges over the code
    units below 256. The white space among them: TAB, LF, VT, FF, CR, SP and
    NBSP. *)
Definition isStrWhiteSpaceChar (c : ascii) : bool :=
  let n := N_of_ascii c in
  ((9 <=? n) && (n <=? 13) || (n =? 32) || (n =? 160))%N.

Fixpoint trimStart (s : string) : string :=
  match s with
  | EmptyString => EmptyString
  | String c s' => if isStrWhiteSpaceChar c then trimStart s' else s
  end.

Definition digit_of (c : ascii) : option Z :=
  let n := Z.of_N (N_of_ascii c) in
  if (48 <=? n) && (n <=? 57) then Some (n - 48) else None.

(** The longest prefix of decimal digits. *)
Fixpoint digit_prefix (s : string) : list Z :=
  match s with
  | EmptyString => []
  | String c s' =>
      match digit_of c with
      | Some d => d :: digit_prefix s'
      | None => []
      end
  end.

(** [parseInt(input, 10)]: skip leading white space, read an optional sign,
    then the longest run of decimal digits; [NaN] when that run is empty,
    otherwise the Number value of the signed integer ([-0] for a negative
    zero). With radix 10 no [0x] prefix is recognised. *)
Definition parseInt10 (input : string) : number :=
  let s := trimStart input in
  let '(negative, s) :=
    match s with
    | String "-"%char r => (true, r)
    | String "+"%char r => (false, r)
    | _ => (false, s)
    end in
  match digit_prefix s with
  | [] => PrimFloat.nan
  | ds =>
      let mathInt := fold_left (fun acc d => acc * 10 + d) ds 0 in
      if negative
      then (if mathInt =? 0 then PrimFloat.neg_zero else of_Z (- mathInt))
      else of_Z mathInt
  end.

End JS.

(* ================================================================== *)
(** ** Dates (ECMAScript time values) *)
(* ================================================================== *)

Module JSDate.

Definition msPerDay : Z := 86400000.

(** Day number of a time value. *)
Definition Day (t : Z) : Z := t / msPerDay.

Definition DaysInYear (y : Z) : Z :=
  if negb (y mod 4 =? 0) then 365
  else if negb (y mod 100 =? 0) then 366
  else if negb (y mod 400 =? 0) then 365
  else 366.

(** Day number of the first day of year [y]. *)
Definition DayFromYear (y : Z) : Z :=
  365 * (y - 1970) + (y - 1969) / 4 - (y - 1901) / 100 + (y - 1601) / 400.

(** The largest [y] with [DayFromYear y <= Day t]: an estimate from the
    mean length of a Gregorian year, corrected by at most one step. *)
Definition YearFromTime (t : Z) : Z :=
  let d := Day t in
  let y0 := 1970 + (d * 400) / 146097 in
  if DayFromYear (y0 + 1) <=? d then y0 + 1
  else if DayFromYear y0 <=? d then y0
  else y0 - 1.

Definition InLeapYear (t : Z) : Z :=
  if DaysInYear (YearFromTime t) =? 366 then 1 else 0.

Definition DayWithinYear (t : Z) : Z := Day t - DayFromYear (YearFromTime t).

(** Month number, 0 (January) to 11 (December). *)
Definition MonthFromTime (t : Z) : Z :=
  let d := DayWithinYear t in
  let l := InLeapYear t in
  if d <? 31 then 0
  else if d <? 59 + l then 1
  else if d <? 90 + l then 2
  else if d <? 120 + l then 3
  else if d <? 151 + l then 4
  else if d <? 181 + l then 5
  else if d <? 212 + l then 6
  else if d <? 243 + l then 7
  else if d <? 273 + l then 8
  else if d <? 304 + l then 9
  else if d <? 334 + l then 10
  else 11.

(** Day of the month, 1 to 31. *)
Definition DateFromTime (t : Z) : Z :=
  let d := DayWithinYear t in
  let l := InLeapYear t in
  match MonthFromTime t with
  | 0 => d + 1
  | 1 => d - 30
  | 2 => d - 58 - l
  | 3 => d - 89 - l
  | 4 => d - 119 - l
  | 5 => d - 150 - l
  | 6 => d - 180 - l
  | 7 => d - 211 - l
  | 8 => d - 242 - l
  | 9 => d - 272 - l
  | 10 => d - 303 - l
  | _ => d - 333 - l
  end.

Definition HourFromTime (t : Z) : Z := (t / 3600000) mod 24.
Definition MinFromTime (t : Z) : Z := (t / 60000) mod 60.
Definition SecFromTime (t : Z) : Z := (t / 1000) mod 60.
Definition msFromTime (t : Z) : Z := t mod 1000.

Definition digit_char (d : Z) : ascii := ascii_of_N (Z.to_N (48 + d mod 10)).

(** The [k] low decimal digits of [n], most significant first. *)
Fixpoint digits (k : nat) (n : Z) : string :=
  match k with
  | O => EmptyString
  | S k' => digits k' (n / 10) ++ String (digit_char n) EmptyString
  end.

(** The year field of the date-time string format: four digits for years
    0 to 9999, otherwise a sign and six digits. *)
Definition iso_year (y : Z) : string :=
  if (0 <=? y) && (y <=? 9999) then digits 4 y
  else (if y <? 0 then "-" else "+") ++ digits 6 (Z.abs y).

(** The calendar-day part [YYYY-MM-DD] of the UTC date-time string. *)
Definition iso_day (t : Z) : string :=
  iso_year (YearFromTime t) ++ "-" ++ digits 2 (MonthFromTime t + 1)
    ++ "-" ++ digits 2 (DateFromTime t).

(** [Date.prototype.toISOString] of a valid time value:
    [YYYY-MM-DDTHH:mm:ss.sssZ] in UTC. *)
Definition toISOString (t : Z) : string :=
  iso_day t ++ "T" ++ digits 2 (HourFromTime t) ++ ":" ++ digits 2 (MinFromTime t)
    ++ ":" ++ digits 2 (SecFromTime t) ++ "." ++ digits 3 (msFromTime t) ++ "Z".

(** A [Date] object: a time value in milliseconds since the epoch, or the
    invalid date (time value [NaN]). *)
Inductive Date : Type :=
| TimeValue (t : Z)
| InvalidDate.

Section LocalTime.
(** The local time zone adjustment in milliseconds at a UTC time value
    (it comes from the host's time zone data). *)
Variable LocalTZA : Z -> Z.

Definition LocalTime (t : Z) : Z := t + LocalTZA t.

(** [getFullYear()] and [getMonth()]; [None] stands for [NaN]. *)
Definition getFullYear (d : Date) : option Z :=
  match d with
  | TimeValue t => Some (YearFromTime (LocalTime t))
  | InvalidDate => None
  end.

Definition getMonth (d : Date) : option Z :=
  match d with
  | TimeValue t => Some (MonthFromTime (LocalTime t))
  | InvalidDate => None
  end.
End LocalTime.

End JSDate.


(* ================================================================== *)
(** ** Monthly snapshots *)
(* ================================================================== *)

(** Modelled from the spec: [MonthlySnapshotData] is declared in the snapshots
    composable, which is not among the sources; these are the fields the spec's
    data model lists and the code below reads: the month key [YYYY-MM] and the
    three aggregates. *)
Record MonthlySnapshotData : Type := {
  month : string;
  assetsTotal : JS.number;
  liabilitiesTotal : JS.number;
  netWorth : JS.number
}.

(* ================================================================== *)
(** ** useGrowth.ts *)
(* ================================================================== *)

Record GrowthResult : Type := {
  growth : JS.number;
  percentage : JS.number
}.

(** [type ValueKey = 'netWorth' | 'assetsTotal' | 'liabilitiesTotal'] *)
Inductive ValueKey : Type :=
| K_netWorth
| K_assetsTotal
| K_liabilitiesTotal.

(** [snapshot[valueKey]] *)
Definition value_at (valueKey : ValueKey) (s : MonthlySnapshotData) : JS.number :=
  match valueKey with
  | K_netWorth => netWorth s
  | K_assetsTotal => assetsTotal s
  | K_liabilitiesTotal => liabilitiesTotal s
  end.

(** [{ growth: 0, percentage: 0 }] *)
Definition zero_growth : GrowthResult := {| growth := 0%float; percentage := 0%float |}.

(** The delta computation that closes both branches of [calculateGrowth]
    (lines 43-47 and 64-69): [growth = current - startValue] and
    [percentage = startValue !== 0 ? (growth / Math.abs(startValue)) * 100 : 0]. *)
Definition growth_between (current startValue : JS.number) : GrowthResult :=
  let growth := (current - startValue)%float in
  let percentage :=
    if JS.strict_ne_zero startValue
    then (growth / PrimFloat.abs startValue * 100)%float
    else 0%float in
  {| growth := growth; percentage := percentage |}.

(** [latestSnapshot?.[valueKey] ?? currentValue], with
    [latestSnapshot = snapshots[snapshots.length - 1]]; an index out of range
    reads [undefined], here [None]. *)
Definition current_value (snapshots : list MonthlySnapshotData) (valueKey : ValueKey)
    (currentValue : JS.number) : JS.number :=
  let latestSnapshot := nth_error snapshots (List.length snapshots - 1) in
  match option_map (value_at valueKey) latestSnapshot with
  | Some v => v
  | None => currentValue
  end.

(** The array that [monthlySnapshots.value] refers to. [calculateGrowth]
    holds a reference to it, not a copy: every [snapshots.length],
    [snapshots[i]] and [snapshots.find(...)] reads the array as it is at that
    moment, and an expression can complete normally or throw. A computation
    takes the content of the array and gives a completion and the content
    afterwards. *)
Module SnapshotArray.

Definition Store : Type := list MonthlySnapshotData.

Inductive Completion (A : Type) : Type :=
| Normal (value : A)
| Throw (error : string).
Arguments Normal {A} value.
Arguments Throw {A} error.

Definition Exec (A : Type) : Type := Store -> Completion A * Store.

Definition ret {A : Type} (a : A) : Exec A := fun st => (Normal a, st).

Definition throw {A : Type} (error : string) : Exec A := fun st => (Throw error, st).

Definition bind {A B : Type} (m : Exec A) (k : A -> Exec B) : Exec B :=
  fun st =>
    match m st with
    | (Normal a, st') => k a st'
    | (Throw error, st') => (Throw error, st')
    end.

(** [snapshots.length] *)
Definition length : Exec nat := fun st => (Normal (List.length st), st).

(** [snapshots[i]]; an index out of range reads [undefined], here [None]. *)
Definition get (i : Z) : Exec (option MonthlySnapshotData) :=
  fun st => (Normal (if i <? 0 then None else nth_error st (Z.to_nat i)), st).

(** The loop of [Array.prototype.find] from index [k], with [remaining]
    indices below the length read at the start: the element is read from the
    array at each step, the callback is called on it, and the first element
    for which it answers true is the result. A callback that throws ends the
    loop. *)
Fixpoint find_from (callback : option MonthlySnapshotData -> Exec bool)
    (k remaining : nat) : Exec (option MonthlySnapshotData) :=
  match remaining with
  | O => ret None
  | S remaining =>
      fun st =>
        let kValue := nth_error st k in
        match callback kValue st with
        | (Normal true, st') => (Normal kValue, st')
        | (Normal false, st') => find_from callback (S k) remaining st'
        | (Throw error, st') => (Throw error, st')
        end
  end.

(** [snapshots.find(callback)] *)
Definition find (callback : option MonthlySnapshotData -> Exec bool)
    : Exec (option MonthlySnapshotData) :=
  fun st => find_from callback 0 (List.length st) st.

End SnapshotArray.

Section Growth.
(** The host's local time zone adjustment, used by the [Date] getters. *)
Variable LocalTZA : Z -> Z.

(** [`${startDate.getFullYear()}-${String(startDate.getMonth() + 1).padStart(2, '0')}`] *)
Definition start_month (startDate : JSDate.Date) : string :=
  JS.string_of_integral (JSDate.getFullYear LocalTZA startDate) ++ "-" ++
  JS.padStart
    (JS.string_of_integral (option_map (fun m => m + 1) (JSDate.getMonth LocalTZA startDate)))
    2 "0"%char.

(** [calculateGrowth(startDate, valueKey, currentValue)] on the snapshot
    sequence read from [monthlySnapshots.value]; [startDate = None] is
    [null] (all time). *)
Definition calculateGrowth (snapshots : list MonthlySnapshotData)
    (startDate : option JSDate.Date) (valueKey : ValueKey) (currentValue : JS.number)
    : GrowthResult :=
  if (List.length snapshots =? 0)%nat then zero_growth else
  let current := current_value snapshots valueKey currentValue in
  match startDate with
  | None =>
      let firstSnapshot := nth_error snapshots 0 in
      match firstSnapshot with
      | None => zero_growth
      | Some firstSnapshot =>
          if (List.length snapshots <? 2)%nat then zero_growth
          else growth_between current (value_at valueKey firstSnapshot)
      end
  | Some startDate =>
      let startMonth := start_month startDate in
      let startSnapshot := find (fun s => JS.str_ge (month s) startMonth) snapshots in
      let startSnapshot :=
        match startSnapshot with
        | None => nth_error snapshots 0
        | Some s => Some s
        end in
      match startSnapshot with
      | None => zero_growth
      | Some startSnapshot => growth_between current (value_at valueKey startSnapshot)
      end
  end.

(** The three exported wrappers. *)
Definition getGrowthForPeriod snapshots startDate (currentNetWorth : JS.number) :=
  calculateGrowth snapshots startDate K_netWorth currentNetWorth.

Definition getAssetsGrowthForPeriod snapshots startDate (currentAssets : JS.number) :=
  calculateGrowth snapshots startDate K_assetsTotal currentAssets.

Definition getLiabilitiesGrowthForPeriod snapshots startDate (currentLiabilities : JS.number) :=
  calculateGrowth snapshots startDate K_liabilitiesTotal currentLiabilities.

(** [calculateGrowth] as the composable runs it, statement by statement, on
    the array behind [monthlySnapshots.value]. Reading a property of
    [undefined] throws a TypeError. *)
Notation "x <- m ;; k" := (SnapshotArray.bind m (fun x => k))
  (at level 61, m at next level, right associativity).

Definition useGrowth_calculateGrowth (startDate : option JSDate.Date)
    (valueKey : ValueKey) (currentValue : JS.number)
    : SnapshotArray.Exec GrowthResult :=
  len <- SnapshotArray.length;;
  if (len =? 0)%nat then SnapshotArray.ret zero_growth else
  len <- SnapshotArray.length;;
  latestSnapshot <- SnapshotArray.get (Z.of_nat len - 1);;
  let current :=
    match option_map (value_at valueKey) latestSnapshot with
    | Some v => v
    | None => currentValue
    end in
  match startDate with
  | None =>
      firstSnapshot <- SnapshotArray.get 0;;
      match firstSnapshot with
      | None => SnapshotArray.ret zero_growth
      | Some firstSnapshot =>
          len <- SnapshotArray.length;;
          if (len <? 2)%nat then SnapshotArray.ret zero_growth
          else SnapshotArray.ret (growth_between current (value_at valueKey firstSnapshot))
      end
  | Some startDate =>
      let startMonth := start_month startDate in
      startSnapshot <-
        SnapshotArray.find
          (fun s =>
             match s with
             | Some s => SnapshotArray.ret (JS.str_ge (month s) startMonth)
             | None => SnapshotArray.throw "TypeError"
             end);;
      startSnapshot <-
        match startSnapshot with
        | None => SnapshotArray.get 0
        | Some s => SnapshotArray.ret (Some s)
        end;;
      match startSnapshot with
      | None => SnapshotArray.ret zero_growth
      | Some startSnapshot =>
          SnapshotArray.ret (growth_between current (value_at valueKey startSnapshot))
      end
  end.

End Growth.

(* ================================================================== *)
(** ** NetWorthCard.vue: the chart series *)
(* ================================================================== *)

Module Chart.

(** One element of [chartData]. *)
Record Point : Type := {
  x : nat;
  assets : JS.number;
  liabilities : JS.number;
  netWorth : JS.number;
  month : string;
  formattedDate : string
}.

End Chart.

(** [s.assetsTotal > 0 || s.liabilitiesTotal > 0] *)
Definition has_balances (s : MonthlySnapshotData) : bool :=
  (0 <? assetsTotal s)%float || (0 <? liabilitiesTotal s)%float.

(** [array.map((s, index) => f(s, index))], counting from [i]. *)
Fixpoint map_index {A B : Type} (f : A -> nat -> B) (i : nat) (l : list A) : list B :=
  match l with
  | [] => []
  | a :: l' => f a i :: map_index f (S i) l'
  end.

Section ChartData.
(** The short month name that [Intl.DateTimeFormat('en-US', { month: 'short' })]
    prints for [parseLocalDate(d)]; locale data of the host. *)
Variable short_month_label : string -> string.

Definition chart_point (s : MonthlySnapshotData) (index : nat) : Chart.Point :=
  {| Chart.x := index;
     Chart.assets := assetsTotal s;
     Chart.liabilities := liabilitiesTotal s;
     Chart.netWorth := netWorth s;
     Chart.month := month s;
     Chart.formattedDate := short_month_label (month s ++ "-01") |}.

(** [chartData]: the snapshots with a positive total, re-indexed from 0. *)
Definition chartData (monthlySnapshots : list MonthlySnapshotData) : list Chart.Point :=
  let snapshots := filter has_balances monthlySnapshots in
  map_index chart_point 0%nat snapshots.

End ChartData.

(** The value of a string of decimal digits, continuing from [acc]. *)
Fixpoint decimal_value (acc : Z) (s : string) : option Z :=
  match s with
  | EmptyString => Some acc
  | String c s' =>
      match JS.digit_of c with
      | Some d => decimal_value (acc * 10 + d) s'
      | None => None
      end
  end.

(** Calendar arithmetic on month keys, to speak about gaps in a series: the
    number of months since year 0 of a key [YYYY-MM]. *)
Definition month_ordinal (key : string) : option Z :=
  match decimal_value 0 (substring 0 4 key), decimal_value 0 (substring 5 2 key) with
  | Some y, Some m =>
      if (String.length key =? 7)%nat && (1 <=? m) && (m <=? 12)
         && match String.get 4 key with Some c => Ascii.eqb c "-" | None => false end
      then Some (y * 12 + (m - 1)) else None
  | _, _ => None
  end.

(** Consecutive keys of the list are consecutive calendar months. *)
Fixpoint consecutive_months (keys : list string) : bool :=
  match keys with
  | [] => true
  | k :: rest =>
      match rest with
      | [] => true
      | k' :: _ =>
          match month_ordinal k, month_ordinal k' with
          | Some a, Some b => (b =? a + 1) && consecutive_months rest
          | _, _ => false
          end
      end
  end.

(* ================================================================== *)
(** ** The accounts composable *)
(* ================================================================== *)

(** Modelled from the spec: [OwnerType] is declared in [~/types/db], which is
    not among the sources; the owner tier is one of [me], [spouse], [joint]. *)
Inductive OwnerType : Type :=
| me
| spouse
| joint.

Module AccountInput.
Record t : Type := {
  name : string;
  bank : string;
  category : string;
  owner : OwnerType;
  initialBalance : JS.number;
  notes : option string
}.
End AccountInput.

Module AccountUpdate.
Record t : Type := {
  name : string;
  bank : string;
  category : string;
  owner : OwnerType;
  notes : option string
}.
End AccountUpdate.

Record BalanceEntry : Type := {
  date : string;
  value : JS.number
}.

(** The argument of [getBalanceHistory]: [string | number]. *)
Inductive AccountId : Type :=
| IdString (s : string)
| IdNumber (n : JS.number).

(** A call that leaves the composable for one of its collaborators, with the
    arguments it was given. *)
Inductive Call : Type :=
| CallGetAccountBalances (accountId : JS.number)
| CallDbAddAccount (account : AccountInput.t)
| CallDbUpdateBalance (accountId : JS.number) (amount : JS.number) (dateStr : string)
| CallDbUpdateAccount (accountId : JS.number) (data : AccountUpdate.t)
| CallDbDeleteAccount (accountId : JS.number)
| CallLoadSnapshots.

(** What [useDatabase()] and [useSnapshots()] hand to the composable. Neither
    is among the sources, so their behaviour is a parameter: a database
    operation maps the store to its next state, or fails ([None], a rejected
    promise); [rebuild] is the snapshot sequence that a reload computes from
    the store. *)
Record Collaborators : Type := {
  DB : Type;
  Cache : Type;
  DbBalance : Type;
  balance_date : DbBalance -> string;
  balance_value : DbBalance -> JS.number;
  getAccountBalances : JS.number -> DB -> option (list DbBalance);
  dbAddAccount : AccountInput.t -> DB -> option DB;
  dbUpdateBalance : JS.number -> JS.number -> string -> DB -> option DB;
  dbUpdateAccount : JS.number -> AccountUpdate.t -> DB -> option DB;
  dbDeleteAccount : JS.number -> DB -> option DB;
  rebuild : DB -> option Cache
}.

Section Accounts.
Variable env : Collaborators.

(** Everything a call can read or change: the store, the snapshot cache, the
    host clock (milliseconds since the epoch, read by [new Date()]), the
    lines written by [console.error], and the calls made so far. *)
Record World : Type := {
  db : DB env;
  cache : Cache env;
  clock : Z;
  console : list (list string);
  calls : list Call
}.

(** How an awaited call ends: the promise resolves with a value, or rejects. *)
Inductive Outcome (A : Type) : Type :=
| Resolved (a : A) (w : World)
| Rejected (w : World).
Arguments Resolved {A} a w.
Arguments Rejected {A} w.

Definition M (A : Type) : Type := World -> Outcome A.

Definition ret {A : Type} (a : A) : M A := fun w => Resolved a w.

Definition bind {A B : Type} (m : M A) (k : A -> M B) : M B :=
  fun w =>
    match m w with
    | Resolved a w' => k a w'
    | Rejected w' => Rejected w'
    end.

Notation "x <- m ;; k" := (bind m (fun x => k))
  (at level 61, m at next level, right associativity).
Notation "m ;; k" := (bind m (fun _ => k))
  (at level 61, right associativity).

Definition record_call (c : Call) (w : World) : World :=
  {| db := db w; cache := cache w; clock := clock w; console := console w;
     calls := calls w ++ [c] |}.

Definition set_db (d : DB env) (w : World) : World :=
  {| db := d; cache := cache w; clock := clock w; console := console w;
     calls := calls w |}.

Definition set_cache (c : Cache env) (w : World) : World :=
  {| db := db w; cache := c; clock := clock w; console := console w;
     calls := calls w |}.

(** [await] of a database write. *)
Definition await_write (c : Call) (op : DB env -> option (DB env)) : M unit :=
  fun w =>
    let w := record_call c w in
    match op (db w) with
    | Some d => Resolved tt (set_db d w)
    | None => Rejected w
    end.

(** [await getAccountBalances(numericId)] *)
Definition await_getAccountBalances (numericId : JS.number) : M (list (DbBalance env)) :=
  fun w =>
    let w := record_call (CallGetAccountBalances numericId) w in
    match getAccountBalances env numericId (db w) with
    | Some balances => Resolved balances w
    | None => Rejected w
    end.

(** Modelled from the spec: [loadSnapshots] belongs to the snapshots
    composable, which is not among the sources. It recomputes the snapshot
    sequence from the store's current state and installs it in the cache; when
    that fails the cache keeps its last sequence and the promise rejects. *)
Definition loadSnapshots : M unit :=
  fun w =>
    let w := record_call CallLoadSnapshots w in
    match rebuild env (db w) with
    | Some c => Resolved tt (set_cache c w)
    | None => Rejected w
    end.

(** [console.error(...args)] *)
Definition console_error (args : list string) : M unit :=
  fun w =>
    Resolved tt
      {| db := db w; cache := cache w; clock := clock w;
         console := console w ++ [args]; calls := calls w |}.

(** [new Date()]: the time value of the host clock. *)
Definition new_Date : M Z := fun w => Resolved (clock w) w.

(** Get full balance history for an account. *)
Definition getBalanceHistory (accountId : AccountId) : M (list BalanceEntry) :=
  let numericId :=
    match accountId with
    | IdNumber n => n
    | IdString s => JS.parseInt10 s
    end in
  if JS.isNaN numericId then ret []
  else
    balances <- await_getAccountBalances numericId ;;
    ret (map (fun b => {| date := balance_date env b; value := balance_value env b |})
             balances).

(** Add a new account. *)
Definition addAccount (account : AccountInput.t) : M unit :=
  await_write (CallDbAddAccount account) (dbAddAccount env account) ;;
  loadSnapshots.

(** [date || new Date().toISOString().slice(0, 10)]; the clock is read only
    when [date] is falsy ([None] is an omitted or [undefined] argument). *)
Definition date_or_today (date : option string) : M string :=
  let today := now <- new_Date ;; ret (JS.slice0 10 (JSDate.toISOString now)) in
  match date with
  | Some d => if JS.truthy d then ret d else today
  | None => today
  end.

(** Update balance for an account. *)
Definition updateBalance (accountId : string) (amount : JS.number) (date : option string)
    : M unit :=
  let numericId := JS.parseInt10 accountId in
  if JS.isNaN numericId then
    console_error ["[useAccounts] Invalid account ID:"; accountId]
  else
    dateStr <- date_or_today date ;;
    await_write (CallDbUpdateBalance numericId amount dateStr)
                (dbUpdateBalance env numericId amount dateStr) ;;
    loadSnapshots.

(** Update account details. *)
Definition updateAccount (accountId : string) (data : AccountUpdate.t) : M unit :=
  let numericId := JS.parseInt10 accountId in
  if JS.isNaN numericId then
    console_error ["[useAccounts] Invalid account ID:"; accountId]
  else
    await_write (CallDbUpdateAccount numericId data) (dbUpdateAccount env numericId data) ;;
    loadSnapshots.

(** Delete an account. *)
Definition deleteAccount (accountId : string) : M unit :=
  let numericId := JS.parseInt10 accountId in
  if JS.isNaN numericId then
    console_error ["[useAccounts] Invalid account ID:"; accountId]
  else
    await_write (CallDbDeleteAccount numericId) (dbDeleteAccount env numericId) ;;
    loadSnapshots.

End Accounts.

Arguments Resolved {env A} a w.
Arguments Rejected {env A} w.
Arguments db {env} w.
Arguments cache {env} w.
Arguments clock {env} w.
Arguments console {env} w.
Arguments calls {env} w.

(* ================================================================== *)
(** ** Vocabulary of the statements *)
(* ================================================================== *)

(** A small in-memory instance of the collaborators, on which the composable
    can be run: the store is a list of balance rows tagged with their account
    id, and a reload lists the stored values. *)
Definition memory_rows : Type := list (JS.number * BalanceEntry).

Definition memory_store : Collaborators :=
  {| DB := memory_rows;
     Cache := list JS.number;
     DbBalance := BalanceEntry;
     balance_date := date;
     balance_value := value;
     getAccountBalances := fun id rows =>
       Some (map snd (filter (fun r => PrimFloat.eqb (fst r) id) rows));
     dbAddAccount := fun account rows =>
       Some (rows ++ [(JS.of_Z (Z.of_nat (List.length rows) + 1),
                       {| date := "2024-01-01";
                          value := AccountInput.initialBalance account |})])%list;
     dbUpdateBalance := fun id amount dateStr rows =>
       Some (rows ++ [(id, {| date := dateStr; value := amount |})])%list;
     dbUpdateAccount := fun _ _ rows => Some rows;
     dbDeleteAccount := fun id rows =>
       Some (filter (fun r => negb (PrimFloat.eqb (fst r) id)) rows);
     rebuild := fun rows => Some (map (fun r => value (snd r)) rows) |}.

Definition memory_world (rows : memory_rows) (snaps : list JS.number) (now : Z)
    (made : list Call) : World memory_store :=
  {| db := (rows : DB memory_store); cache := (snaps : Cache memory_store);
     clock := now; console := []; calls := made |}.

(** The world in which an awaited call ended. *)
Definition final_world {env : Collaborators} {A : Type} (o : Outcome env A) : World env :=
  match o with
  | Resolved _ w => w
  | Rejected w => w
  end.

(** A snapshot whose three aggregates are given. *)
Definition snapshot (m : string) (a l n : JS.number) : MonthlySnapshotData :=
  {| month := m; assetsTotal := a; liabilitiesTotal := l; netWorth := n |}.

(** [l1] is [l2] with some elements removed, the others in their order. *)
Inductive Subsequence {A : Type} : list A -> list A -> Prop :=
| Subsequence_nil : Subsequence [] []
| Subsequence_skip : forall a l1 l2, Subsequence l1 l2 -> Subsequence l1 (a :: l2)
| Subsequence_keep : forall a l1 l2, Subsequence l1 l2 -> Subsequence (a :: l1) (a :: l2).

(** The call resolved and changed neither the store nor the cache, and made
    no call to a collaborator. *)
Definition returns_untouched {env : Collaborators} (w : World env)
    (o : Outcome env unit) : Prop :=
  exists w', o = Resolved tt w' /\
             db w' = db w /\ cache w' = cache w /\ calls w' = calls w.

(** The write [op], logged as [c], succeeded on the store of [w]; the reload
    then ran on the written store and installed its result; [w'] is the world
    after both. *)
Definition written_then_reloaded {env : Collaborators} (c : Call)
    (op : DB env -> option (DB env)) (w w' : World env) : Prop :=
  exists d snaps,
    op (db w) = Some d /\
    rebuild env d = Some snaps /\
    w' = {| db := d; cache := snaps; clock := clock w; console := console w;
            calls := calls w ++ [c; CallLoadSnapshots] |}.

(** The first call made from world [w] on: the entry of the final call log
    that comes just after the calls [w] already held. *)
Definition next_call {env : Collaborators} {A : Type} (w : World env)
    (o : Outcome env A) : option Call :=
  nth_error (calls (final_world o)) (List.length (calls w)).

(** A second in-memory instance whose operations can fail: an update or a
    delete of an account without rows is rejected, and a reload is rejected
    when a stored value is [NaN]. *)
Definition has_account (id : JS.number) (rows : memory_rows) : bool :=
  existsb (fun r => PrimFloat.eqb (fst r) id) rows.

Definition strict_store : Collaborators :=
  {| DB := memory_rows;
     Cache := list JS.number;
     DbBalance := BalanceEntry;
     balance_date := date;
     balance_value := value;
     getAccountBalances := fun id rows =>
       if has_account id rows
       then Some (map snd (filter (fun r => PrimFloat.eqb (fst r) id) rows))
       else None;
     dbAddAccount := fun account rows =>
       Some (rows ++ [(JS.of_Z (Z.of_nat (List.length rows) + 1),
                       {| date := "2024-01-01";
                          value := AccountInput.initialBalance account |})])%list;
     dbUpdateBalance := fun id amount dateStr rows =>
       if has_account id rows
       then Some (rows ++ [(id, {| date := dateStr; value := amount |})])%list
       else None;
     dbUpdateAccount := fun id _ rows => if has_account id rows then Some rows else None;
     dbDeleteAccount := fun id rows =>
       if has_account id rows
       then Some (filter (fun r => negb (PrimFloat.eqb (fst r) id)) rows)
       else None;
     rebuild := fun rows =>
       if existsb (fun r => JS.isNaN (value (snd r))) rows
       then None
       else Some (map (fun r => value (snd r)) rows) |}.

Definition strict_world (rows : memory_rows) (snaps : list JS.number) (now : Z)
    (made : list Call) : World strict_store :=
  {| db := (rows : DB strict_store); cache := (snaps : Cache strict_store);
     clock := now; console := []; calls := made |}.

(** The call was rejected in a world whose store is [d] and whose cache is
    the one of [w], after the calls [made]. *)
Definition rejected_keeping_cache {env : Collaborators} (w : World env) (d : DB env)
    (made : list Call) (o : Outcome env unit) : Prop :=
  exists w', o = Rejected w' /\
             db w' = d /\ cache w' = cache w /\ calls w' = (calls w ++ made)%list.

(** The call was rejected after the calls [made], and no other call was
    started. *)
Definition rejected_after {env : Collaborators} (w : World env)
    (made : list Call) (o : Outcome env unit) : Prop :=
  exists w', o = Rejected w' /\ calls w' = (calls w ++ made)%list.

(** The date that [updateBalance] passes on: the argument when it is a
    non-empty string, otherwise the first ten characters of the ISO timestamp
    of the clock. *)
Definition passed_date (date : option string) (now : Z) : string :=
  match date with
  | Some (String c d) => String c d
  | _ => JS.slice0 10 (JSDate.toISOString now)
  end.

(** One snapshot's month is before another's, in the order [<] of strings. *)
Definition month_before (a b : MonthlySnapshotData) : Prop :=
  String.ltb (month a) (month b) = true.

(** Modelled from the spec: the snapshot builder is not among the sources; it
    keys a snapshot by its calendar month as [YYYY-MM]. This is that key for
    year [y] and month [m] (1 to 12). *)
Definition month_key (y m : Z) : string :=
  JSDate.digits 4 y ++ "-" ++ JSDate.digits 2 m.

(** A [Set<string>]: its elements in insertion order, without repetition. *)
Module StringSet.

Definition t : Type := list string.

(** [new Set()] *)
Definition empty : t := [].

(** [set.has(x)] *)
Definition has (x : string) (s : t) : bool := existsb (String.eqb x) s.

(** [set.add(x)]: appends [x] unless it is present. *)
Definition add (x : string) (s : t) : t := if has x s then s else (s ++ [x])%list.

(** [set.delete(x)] *)
Definition delete (x : string) (s : t) : t :=
  filter (fun y => negb (String.eqb y x)) s.

End StringSet.

(** The [forEach] of [uniqueMonthIndices]: [seen] and [indices] are the two
    mutable locals, [i] the index of the head of [points]. *)
Fixpoint forEach_unseen (points : list Chart.Point) (i : nat) (seen : StringSet.t)
    (indices : list nat) : list nat :=
  match points with
  | [] => indices
  | d :: rest =>
      if negb (StringSet.has (Chart.formattedDate d) seen)
      then forEach_unseen rest (S i)
             (StringSet.add (Chart.formattedDate d) seen) (indices ++ [i])%list
      else forEach_unseen rest (S i) seen indices
  end.

(** [uniqueMonthIndices], which is also [xTickValues]. *)
Definition uniqueMonthIndices (chartData : list Chart.Point) : list nat :=
  forEach_unseen chartData 0%nat StringSet.empty [].

(** The positions of [points], counted from [i], whose label is neither in
    [seen] nor at an earlier position. *)
Fixpoint first_positions (points : list Chart.Point) (i : nat) (seen : StringSet.t)
    : list nat :=
  match points with
  | [] => []
  | d :: rest =>
      if StringSet.has (Chart.formattedDate d) seen
      then first_positions rest (S i) seen
      else i :: first_positions rest (S i) (StringSet.add (Chart.formattedDate d) seen)
  end.

(** A [Set<number>]: its elements in insertion order; two Numbers are the
    same element when they are equal or both [NaN] (SameValueZero). *)
Module NumberSet.

Definition t : Type := list JS.number.

Definition same_value_zero (x y : JS.number) : bool :=
  PrimFloat.eqb x y || (PrimFloat.is_nan x && PrimFloat.is_nan y).

(** [new Set()] *)
Definition empty : t := [].

(** [set.has(x)] *)
Definition has (x : JS.number) (s : t) : bool :=
  existsb (fun y => same_value_zero y x) s.

(** [set.add(x)]: appends [x] unless it is present. *)
Definition add (x : JS.number) (s : t) : t := if has x s then s else (s ++ [x])%list.

(** [set.delete(x)] *)
Definition delete (x : JS.number) (s : t) : t :=
  filter (fun y => negb (same_value_zero y x)) s.

End NumberSet.

(* ================================================================== *)
(** ** The export dialog *)
(* ================================================================== *)

Module ExportModal.

(** Modelled from the spec: the account rows come from [useNetWorth()], which
    is not among the sources; these are the fields the dialog reads. *)
Record Account : Type := {
  id : string;
  name : string;
  bank : string;
  category : string;
  owner : string;
  latestBalance : JS.number
}.

(** Modelled from the spec: [DbCategory] is declared in [~/types/db], which is
    not among the sources; the dialog reads its name and its id, which may be
    [undefined]. *)
Record DbCategory : Type := {
  cat_id : option JS.number;
  cat_name : string
}.

(** The reactive state of the dialog. *)
Record State : Type := {
  isModalOpen : bool;
  showExcludeOptions : bool;
  excludedCategoryIds : NumberSet.t;
  excludedAccountIds : StringSet.t
}.

(** The names of the properties every plain object inherits from
    [Object.prototype]. *)
Definition object_prototype_keys : list string :=
  ["constructor"; "hasOwnProperty"; "isPrototypeOf"; "propertyIsEnumerable";
   "toLocaleString"; "toString"; "valueOf"; "__proto__"; "__defineGetter__";
   "__defineSetter__"; "__lookupGetter__"; "__lookupSetter__"].

(** The object [grouped]: its own properties, each an array of accounts. *)
Definition Grouped : Type := list (string * list Account).

(** [grouped[key]] when [key] is an own property. *)
Fixpoint own (key : string) (grouped : Grouped) : option (list Account) :=
  match grouped with
  | [] => None
  | (k, v) :: rest => if String.eqb k key then Some v else own key rest
  end.

(** [grouped[key].push(acc)] on an own property. *)
Fixpoint push_own (key : string) (acc : Account) (grouped : Grouped) : Grouped :=
  match grouped with
  | [] => []
  | (k, v) :: rest =>
      if String.eqb k key then (k, (v ++ [acc])%list) :: rest
      else (k, v) :: push_own key acc rest
  end.

(** One turn of the loop of [accountsByCategory]. A category that names an
    inherited property reads as a truthy value without [push], so the call
    of [push] throws a [TypeError], here [None]. *)
Definition group_step (grouped : Grouped) (acc : Account) : option Grouped :=
  match own (category acc) grouped with
  | Some _ => Some (push_own (category acc) acc grouped)
  | None =>
      if existsb (String.eqb (category acc)) object_prototype_keys
      then None
      else Some (push_own (category acc) acc (grouped ++ [(category acc, [])])%list)
  end.

Fixpoint group_loop (grouped : Grouped) (accounts : list Account) : option Grouped :=
  match accounts with
  | [] => Some grouped
  | acc :: rest =>
      match group_step grouped acc with
      | Some grouped' => group_loop grouped' rest
      | None => None
      end
  end.

(** [accountsByCategory] *)
Definition accountsByCategory (accounts : list Account) : option Grouped :=
  group_loop [] accounts.

Section Dialog.
Variable accounts : list Account.
Variable categories : list DbCategory.

(** [getCategoryId(categoryName)]: [cat?.id] of the first category of that
    name. *)
Definition getCategoryId (categoryName : string) : option JS.number :=
  match find (fun c => String.eqb (cat_name c) categoryName) categories with
  | Some cat => cat_id cat
  | None => None
  end.

Definition isCategoryExcluded (st : State) (categoryName : string) : bool :=
  match getCategoryId categoryName with
  | Some catId => NumberSet.has catId (excludedCategoryIds st)
  | None => false
  end.

Definition toggleCategory (categoryName : string) (st : State) : State :=
  match getCategoryId categoryName with
  | None => st
  | Some catId =>
      let newSet := excludedCategoryIds st in
      let newSet :=
        if NumberSet.has catId newSet
        then NumberSet.delete catId newSet
        else NumberSet.add catId newSet in
      {| isModalOpen := isModalOpen st;
         showExcludeOptions := showExcludeOptions st;
         excludedCategoryIds := newSet;
         excludedAccountIds := excludedAccountIds st |}
  end.

Definition isAccountExcluded (st : State) (accountId : string) : bool :=
  StringSet.has accountId (excludedAccountIds st).

Definition toggleAccount (accountId : string) (st : State) : State :=
  let newSet := excludedAccountIds st in
  let newSet :=
    if StringSet.has accountId newSet
    then StringSet.delete accountId newSet
    else StringSet.add accountId newSet in
  {| isModalOpen := isModalOpen st;
     showExcludeOptions := showExcludeOptions st;
     excludedCategoryIds := excludedCategoryIds st;
     excludedAccountIds := newSet |}.

(** The predicate of [filteredAccounts]. *)
Definition is_exported (st : State) (acc : Account) : bool :=
  if StringSet.has (id acc) (excludedAccountIds st) then false
  else
    match getCategoryId (category acc) with
    | Some catId => if NumberSet.has catId (excludedCategoryIds st) then false else true
    | None => true
    end.

Definition filteredAccounts (st : State) : list Account :=
  filter (is_exported st) accounts.

Definition exportCount (st : State) : nat := List.length (filteredAccounts st).
Definition totalCount : nat := List.length accounts.

(** The watcher of [isModalOpen]: closing the dialog resets it. *)
Definition on_isModalOpen (isOpen : bool) (st : State) : State :=
  if negb isOpen
  then {| isModalOpen := isModalOpen st;
          showExcludeOptions := false;
          excludedCategoryIds := NumberSet.empty;
          excludedAccountIds := StringSet.empty |}
  else st.

End Dialog.

(** The double quote character. *)
Definition dquote : ascii := ascii_of_nat 34.
Definition comma : ascii := ascii_of_nat 44.
Definition newline : ascii := ascii_of_nat 10.

(** [field.includes(c)] for a one-character string [c]. *)
Fixpoint includes (c : ascii) (field : string) : bool :=
  match field with
  | EmptyString => false
  | String x rest => Ascii.eqb x c || includes c rest
  end.

(** The global replace of [escapeCsvField]: every double quote is doubled. *)
Fixpoint double_quotes (field : string) : string :=
  match field with
  | EmptyString => EmptyString
  | String x rest =>
      if Ascii.eqb x dquote
      then String dquote (String dquote (double_quotes rest))
      else String x (double_quotes rest)
  end.

Definition escapeCsvField (field : string) : string :=
  if includes comma field || includes dquote field || includes newline field
  then String dquote (double_quotes field ++ String dquote EmptyString)
  else field.

End ExportModal.

(** [xTickFormat(tick)] for a tick that is an array index, as the tick values
    of the axis are: [d?.formattedDate ?? ''], a position outside the series
    reading [undefined]. *)
Definition xTickFormat (chartData : list Chart.Point) (tick : nat) : string :=
  match nth_error chartData tick with
  | Some d => Chart.formattedDate d
  | None => ""
  end.

(** [xTickValues] *)
Definition xTickValues (chartData : list Chart.Point) : list nat :=
  uniqueMonthIndices chartData.

(* ================================================================== *)
(** ** Export file names *)
(* ================================================================== *)

(** [s.split(c)[0]] for a one-character separator: the text before the first
    [c], or all of [s] when there is none. *)
Fixpoint split_head (c : ascii) (s : string) : string :=
  match s with
  | EmptyString => EmptyString
  | String x rest => if Ascii.eqb x c then EmptyString else String x (split_head c rest)
  end.

(** settings.vue, [onExport]:
    [`networth-export-${new Date().toISOString().split('T')[0]}.json`] *)
Definition database_export_name (now : Z) : string :=
  "networth-export-" ++ split_head "T" (JSDate.toISOString now) ++ ".json".

(** The export dialog, [exportToCsv]:
    [`account-balances-${today}.csv`] with
    [today = new Date().toISOString().slice(0, 10)]. *)
Definition accounts_export_name (now : Z) : string :=
  "account-balances-" ++ JS.slice0 10 (JSDate.toISOString now) ++ ".csv".

(* ================================================================== *)
(** ** useNavItems.ts *)
(* ================================================================== *)

Module Nav.

Record Item : Type := {
  label : string;
  icon : string;
  to : string;
  active : bool
}.

(** [path.startsWith(prefix)] *)
Definition startsWith (path prefix : string) : bool := String.prefix prefix path.

(** The two items for the route [route.path]. *)
Definition useNavItems (path : string) : list Item :=
  [ {| label := "Dashboard"; icon := "i-lucide-layout-dashboard"; to := "/";
       active := String.eqb path "/" |};
    {| label := "Accounts"; icon := "i-lucide-wallet"; to := "/accounts";
       active := startsWith path "/accounts" |} ].

End Nav.

(* ================================================================== *)
(** ** The owner badge *)
(* ================================================================== *)

Module Badge.

(** [s.trimEnd()] *)
Fixpoint trimEnd (s : string) : string :=
  match s with
  | EmptyString => EmptyString
  | String c s' =>
      match trimEnd s' with
      | EmptyString => if JS.isStrWhiteSpaceChar c then EmptyString else String c EmptyString
      | r => String c r
      end
  end.

(** [s.trim()] *)
Definition trim (s : string) : string := trimEnd (JS.trimStart s).

(** [s.split(/\s+/)]: the pieces of [s] between its runs of white space; a
    run at the start or at the end leaves an empty piece there. [in_run]
    tells that the character before was white space. *)
Fixpoint split_spaces (in_run : bool) (s : string) : list string :=
  match s with
  | EmptyString => [EmptyString]
  | String c s' =>
      if JS.isStrWhiteSpaceChar c
      then (if in_run then split_spaces true s'
            else EmptyString :: split_spaces true s')
      else match split_spaces false s' with
           | piece :: pieces => String c piece :: pieces
           | [] => [String c EmptyString]
           end
  end.

(** [w[0]] inside [join('')]: the first character, or nothing for an empty
    word. *)
Definition first_char (w : string) : string :=
  match w with
  | EmptyString => EmptyString
  | String c _ => String c EmptyString
  end.

(** [array.join('')] *)
Definition join_empty (l : list string) : string := String.concat EmptyString l.

Section Initials.
(** [String.prototype.toUpperCase], which maps through the Unicode case
    tables of the host. *)
Variable toUpperCase : string -> string.

(** [initials]; [None] is [undefined]. *)
Definition initials (name : string) : option string :=
  if negb (JS.truthy name) then Some "?"
  else
    let words := split_spaces false (trim name) in
    if (List.length words =? 1)%nat
    then option_map (fun w => toUpperCase (substring 0 2 w)) (nth_error words 0)
    else Some (toUpperCase (join_empty (map first_char (firstn 2 words)))).

End Initials.

End Badge.

(* ================================================================== *)
(** ** settings.vue: deleting a category *)
(* ================================================================== *)

Module Settings.

(** The argument of [toast.add]. *)
Record Toast : Type := {
  title : string;
  description : option string;
  color : string
}.

(** Truthiness of a Number: [0], [-0] and [NaN] are falsy. *)
Definition truthy_number (x : JS.number) : bool :=
  negb (PrimFloat.eqb x 0%float || PrimFloat.is_nan x).

Section Page.
(** The category table behind [useDatabase()], and its [deleteCategory]: the
    table after the call, and the text of the error when the call rejects. *)
Variable DB : Type.
Variable deleteCategory : JS.number -> DB -> DB * option string.

(** The two refs of the delete dialog, the toasts shown so far, the category
    table, and the ids [deleteCategory] was called with. *)
Record Page : Type := {
  categoryToDelete : option ExportModal.DbCategory;
  isDeleteCategoryModalOpen : bool;
  toasts : list Toast;
  store : DB;
  deleteCalls : list JS.number
}.

Definition confirmDeleteCategory (category : ExportModal.DbCategory) (st : Page) : Page :=
  {| categoryToDelete := Some category;
     isDeleteCategoryModalOpen := true;
     toasts := toasts st;
     store := store st;
     deleteCalls := deleteCalls st |}.

(** [onDeleteCategory]: the [try] block on success, the [catch] block when
    [deleteCategory] rejects. *)
Definition onDeleteCategory (st : Page) : Page :=
  match option_map ExportModal.cat_id (categoryToDelete st) with
  | Some (Some id) =>
      if negb (truthy_number id) then st
      else
        match deleteCategory id (store st) with
        | (d, None) =>
            {| categoryToDelete := None;
               isDeleteCategoryModalOpen := false;
               toasts := (toasts st ++ [{| title := "Category deleted";
                                           description := None;
                                           color := "success" |}])%list;
               store := d;
               deleteCalls := (deleteCalls st ++ [id])%list |}
        | (d, Some error) =>
            {| categoryToDelete := categoryToDelete st;
               isDeleteCategoryModalOpen := isDeleteCategoryModalOpen st;
               toasts := (toasts st ++ [{| title := "Error";
                                           description := Some error;
                                           color := "error" |}])%list;
               store := d;
               deleteCalls := (deleteCalls st ++ [id])%list |}
        end
  | _ => st
  end.

End Page.

End Settings.

(* ================================================================== *)
(** ** Facts about lists and strings *)
(* ================================================================== *)

Lemma find_first_split {A : Type} (f : A -> bool) :
  forall pre s post,
    (forall p, In p pre -> f p = false) -> f s = true ->
    find f (pre ++ s :: post) = Some s.
Proof.
  induction pre as [|a pre IH]; intros s post Hpre Hs; simpl.
  - now rewrite Hs.
  - rewrite (Hpre a (or_introl eq_refl)). apply IH; auto.
    intros p Hp. apply Hpre. now right.
Qed.

Lemma find_all_false {A : Type} (f : A -> bool) :
  forall l, (forall p, In p l -> f p = false) -> find f l = None.
Proof.
  induction l as [|a l IH]; intros H; simpl; [reflexivity|].
  rewrite (H a (or_introl eq_refl)). apply IH. intros p Hp. apply H. now right.
Qed.

Lemma nth_error_last {A : Type} :
  forall (l : list A) d, l <> [] -> nth_error l (List.length l - 1) = Some (last l d).
Proof.
  intros l d Hl. destruct (exists_last Hl) as [l' [a ->]].
  rewrite last_last, last_length. simpl. rewrite Nat.sub_0_r.
  rewrite nth_error_app2 by apply Nat.le_refl. now rewrite Nat.sub_diag.
Qed.

Lemma last_default {A : Type} :
  forall (l : list A) d d', l <> [] -> last l d = last l d'.
Proof.
  intros l d d' Hl. destruct (exists_last Hl) as [l' [a ->]].
  now rewrite !last_last.
Qed.

Lemma filter_Subsequence {A : Type} (f : A -> bool) :
  forall l, Subsequence (filter f l) l.
Proof.
  induction l as [|a l IH]; simpl.
  - constructor.
  - destruct (f a); now constructor.
Qed.

Lemma map_index_length {A B : Type} (f : A -> nat -> B) :
  forall l i, List.length (map_index f i l) = List.length l.
Proof.
  induction l as [|a l IH]; intros i; simpl; [reflexivity|]. now rewrite IH.
Qed.

Lemma map_index_nth {A B : Type} (f : A -> nat -> B) :
  forall l i k, nth_error (map_index f i l) k
                = option_map (fun a => f a (i + k)%nat) (nth_error l k).
Proof.
  induction l as [|a l IH]; intros i k; simpl.
  - now destruct k.
  - destruct k as [|k]; simpl.
    + now rewrite Nat.add_0_r.
    + rewrite IH. now rewrite Nat.add_succ_r.
Qed.

Lemma map_index_map {A B C : Type} (f : A -> nat -> B) (g : B -> C) (h : A -> C) :
  (forall a i, g (f a i) = h a) ->
  forall l i, map g (map_index f i l) = map h l.
Proof.
  intros Hgf. induction l as [|a l IH]; intros i; simpl; [reflexivity|].
  now rewrite Hgf, IH.
Qed.

(* ================================================================== *)
(** ** calculateGrowth *)
(* ================================================================== *)

Section GrowthFacts.
Variable LocalTZA : Z -> Z.

Lemma current_value_last :
  forall snapshots valueKey currentValue d,
    snapshots <> [] ->
    current_value snapshots valueKey currentValue = value_at valueKey (last snapshots d).
Proof.
  intros snapshots valueKey currentValue d Hne. unfold current_value.
  now rewrite (nth_error_last snapshots d Hne).
Qed.

Lemma length_eqb_0_nonempty :
  forall (snapshots : list MonthlySnapshotData),
    snapshots <> [] -> (List.length snapshots =? 0)%nat = false.
Proof.
  intros [|s l] H; [congruence | reflexivity].
Qed.

(** With a start date, the result is the delta between the last snapshot and
    the snapshot found by the scan, or the first one when the scan fails. *)
Lemma calculateGrowth_dated :
  forall first rest startDate valueKey currentValue,
    let snapshots := first :: rest in
    calculateGrowth LocalTZA snapshots (Some startDate) valueKey currentValue
    = growth_between
        (value_at valueKey (last snapshots first))
        (value_at valueKey
           match find (fun s => JS.str_ge (month s) (start_month LocalTZA startDate))
                      snapshots with
           | Some s => s
           | None => first
           end).
Proof.
  intros first rest startDate valueKey currentValue snapshots.
  unfold calculateGrowth.
  rewrite length_eqb_0_nonempty by discriminate.
  rewrite (current_value_last snapshots valueKey currentValue first) by discriminate.
  destruct (find _ snapshots); reflexivity.
Qed.

(** Without a start date and with at least two snapshots, the result is the
    delta between the last snapshot and the first. *)
Lemma calculateGrowth_all_time :
  forall first second rest valueKey currentValue,
    let snapshots := first :: second :: rest in
    calculateGrowth LocalTZA snapshots None valueKey currentValue
    = growth_between (value_at valueKey (last snapshots first)) (value_at valueKey first).
Proof.
  intros first second rest valueKey currentValue snapshots.
  unfold calculateGrowth.
  rewrite length_eqb_0_nonempty by discriminate.
  rewrite (current_value_last snapshots valueKey currentValue first) by discriminate.
  reflexivity.
Qed.

End GrowthFacts.

(** C2. Whenever a delta is computed (a non-empty sequence, and at least two
    snapshots when there is no start date), the growth is the chosen field of
    the last snapshot minus the start value, and the percentage is 0 when the
    start value is 0 and otherwise growth divided by the absolute start value,
    times 100. A start value of -50 and a current value of 100 give a growth
    of 150 and a percentage of 300. *)
Theorem calculateGrowth_formula :
  forall (LocalTZA : Z -> Z) snapshots startDate valueKey currentValue,
    snapshots <> [] ->
    (startDate = None -> 2 <= List.length snapshots)%nat ->
    let result := calculateGrowth LocalTZA snapshots startDate valueKey currentValue in
    (exists start,
        In start snapshots /\
        (startDate = None -> hd_error snapshots = Some start) /\
        let current := value_at valueKey (last snapshots start) in
        let startValue := value_at valueKey start in
        growth result = (current - startValue)%float /\
        percentage result =
          if PrimFloat.eqb startValue 0
          then 0%float
          else ((current - startValue) / PrimFloat.abs startValue * 100)%float)
    /\ growth_between 100%float (-50)%float
       = {| growth := 150%float; percentage := 300%float |}
    /\ (forall m1 a1 n1 m2 a2 n2 cv,
          calculateGrowth LocalTZA
            [snapshot m1 a1 (-50)%float n1; snapshot m2 a2 100%float n2]
            None K_liabilitiesTotal cv
          = {| growth := 150%float; percentage := 300%float |}).
Proof.
  intros LocalTZA snapshots startDate valueKey currentValue Hne Hlen result.
  split; [|split; [reflexivity | intros; reflexivity]].
  assert (Hdelta : forall cur sv,
            growth (growth_between cur sv) = (cur - sv)%float /\
            percentage (growth_between cur sv) =
              if PrimFloat.eqb sv 0 then 0%float
              else ((cur - sv) / PrimFloat.abs sv * 100)%float).
  { intros cur sv. unfold growth_between, JS.strict_ne_zero. simpl.
    split; [reflexivity|]. now destruct (PrimFloat.eqb sv 0). }
  subst result.
  destruct snapshots as [|first rest]; [congruence|].
  destruct startDate as [d|].
  - rewrite calculateGrowth_dated.
    destruct (find _ (first :: rest)) as [s|] eqn:Hfind.
    + exists s. split; [apply (find_some _ _ Hfind)|].
      split; [discriminate|]. cbv zeta.
      rewrite (last_default (first :: rest) first s Hne). apply Hdelta.
    + exists first. split; [now left|]. split; [discriminate|]. apply Hdelta.
  - destruct rest as [|second rest]; [specialize (Hlen eq_refl); simpl in Hlen; lia|].
    rewrite calculateGrowth_all_time.
    exists first. split; [now left|]. split; [reflexivity|]. apply Hdelta.
Qed.

(** A liability total that moves from -50 to 100, all time. *)
Lemma calculateGrowth_formula_witness :
  calculateGrowth (fun _ => 0)
    [snapshot "2024-01" 0 (-50) 50; snapshot "2024-02" 0 100 (-100)]%float
    None K_liabilitiesTotal 0%float
  = {| growth := 150%float; percentage := 300%float |}.
Proof.
  refine (proj2 (proj2 (calculateGrowth_formula (fun _ => 0)
            [snapshot "2024-01" 0 (-50) 50; snapshot "2024-02" 0 100 (-100)]%float
            None K_liabilitiesTotal 0%float _ _)) _ _ _ _ _ _ _).
  - discriminate.
  - intros _. simpl. lia.
Defined.

(** C3. With fewer than two snapshots and no start date the result is
    growth 0 and percentage 0, whatever the field and the current value. *)
Theorem calculateGrowth_all_time_short :
  forall (LocalTZA : Z -> Z) snapshots valueKey currentValue,
    (List.length snapshots < 2)%nat ->
    calculateGrowth LocalTZA snapshots None valueKey currentValue
    = {| growth := 0%float; percentage := 0%float |}.
Proof.
  intros LocalTZA snapshots valueKey currentValue Hlen.
  destruct snapshots as [|first [|second rest]]; simpl in Hlen; try lia; reflexivity.
Qed.

(** A sequence of length one. *)
Lemma calculateGrowth_all_time_short_witness :
  calculateGrowth (fun _ => 0) [snapshot "2024-01" 1000 200 800]%float None
    K_assetsTotal 5000%float
  = {| growth := 0%float; percentage := 0%float |}.
Proof.
  apply (calculateGrowth_all_time_short (fun _ => 0)
           [snapshot "2024-01" 1000 200 800]%float K_assetsTotal 5000%float).
  simpl. lia.
Defined.

(** C4. On the empty sequence the result is growth 0 and percentage 0 for
    every field, every start date (null or not) and every current value; the
    function always returns a result. *)
Theorem calculateGrowth_empty :
  forall (LocalTZA : Z -> Z) startDate valueKey currentValue,
    calculateGrowth LocalTZA [] startDate valueKey currentValue
    = {| growth := 0%float; percentage := 0%float |}.
Proof.
  intros. reflexivity.
Qed.

(** C7. On a non-empty sequence the current value is the chosen field of the
    last snapshot, the fallback to the [currentValue] argument is not taken,
    and two calls that differ only in that argument return the same result. *)
Theorem calculateGrowth_ignores_currentValue :
  forall (LocalTZA : Z -> Z) snapshots startDate valueKey currentValue,
    snapshots <> [] ->
    (forall d, current_value snapshots valueKey currentValue
               = value_at valueKey (last snapshots d))
    /\ (forall currentValue',
          calculateGrowth LocalTZA snapshots startDate valueKey currentValue
          = calculateGrowth LocalTZA snapshots startDate valueKey currentValue').
Proof.
  intros LocalTZA snapshots startDate valueKey currentValue Hne. split.
  - intros d. now apply current_value_last.
  - intros currentValue'. unfold calculateGrowth.
    destruct snapshots as [|first rest]; [congruence|].
    now rewrite !(current_value_last (first :: rest) valueKey _ first Hne).
Qed.

(** Two current values on a two-month history. *)
Lemma calculateGrowth_ignores_currentValue_witness :
  calculateGrowth (fun _ => 0)
    [snapshot "2024-01" 1000 0 1000; snapshot "2024-02" 1100 0 1100]%float
    None K_netWorth 0%float
  = calculateGrowth (fun _ => 0)
    [snapshot "2024-01" 1000 0 1000; snapshot "2024-02" 1100 0 1100]%float
    None K_netWorth 99%float.
Proof.
  refine (proj2 (calculateGrowth_ignores_currentValue (fun _ => 0)
            [snapshot "2024-01" 1000 0 1000; snapshot "2024-02" 1100 0 1100]%float
            None K_netWorth 0%float _) 99%float).
  discriminate.
Defined.

(** The scan of [find] with the callback of [calculateGrowth], from index
    [k] to the end of the array: it completes normally with the first match
    and leaves the array as it is. *)
Lemma find_from_month_scan :
  forall startMonth (st : SnapshotArray.Store) k,
    (k <= List.length st)%nat ->
    SnapshotArray.find_from
      (fun s =>
         match s with
         | Some s => SnapshotArray.ret (JS.str_ge (month s) startMonth)
         | None => SnapshotArray.throw "TypeError"
         end)
      k (List.length st - k) st
    = (SnapshotArray.Normal
         (find (fun s => JS.str_ge (month s) startMonth) (skipn k st)), st).
Proof.
  intros startMonth st k Hk.
  remember (List.length st - k)%nat as n eqn:Hn.
  revert k Hk Hn. induction n as [|n IH]; intros k Hk Hn.
  - rewrite skipn_all2 by lia. reflexivity.
  - destruct (nth_error st k) as [s|] eqn:Hs.
    + pose proof (nth_error_split st k Hs) as (l1 & l2 & -> & Hl1).
      assert (Hskip : skipn k (l1 ++ s :: l2) = (s :: l2)%list).
      { rewrite skipn_app, (skipn_all2 l1) by lia.
        replace (k - List.length l1)%nat with 0%nat by lia. reflexivity. }
      rewrite Hskip. cbn [SnapshotArray.find_from find]. rewrite Hs.
      unfold SnapshotArray.ret at 1.
      destruct (JS.str_ge (month s) startMonth); [reflexivity|].
      rewrite IH.
      * assert (Hskip' : skipn (S k) (l1 ++ s :: l2) = l2).
        { rewrite skipn_app, (skipn_all2 l1) by lia.
          replace (S k - List.length l1)%nat with 1%nat by lia. reflexivity. }
        now rewrite Hskip'.
      * rewrite length_app in *. simpl in *. lia.
      * rewrite length_app in *. simpl in *. lia.
    + apply nth_error_None in Hs. lia.
Qed.

(** A run of the composable's [calculateGrowth] completes normally with the
    value of [calculateGrowth] on the content of the array and leaves the
    array as it is. *)
Lemma useGrowth_calculateGrowth_run :
  forall (LocalTZA : Z -> Z) startDate valueKey currentValue
         (snapshots : SnapshotArray.Store),
    useGrowth_calculateGrowth LocalTZA startDate valueKey currentValue snapshots
    = (SnapshotArray.Normal
         (calculateGrowth LocalTZA snapshots startDate valueKey currentValue),
       snapshots).
Proof.
  intros LocalTZA startDate valueKey currentValue snapshots.
  unfold useGrowth_calculateGrowth, calculateGrowth, current_value.
  unfold SnapshotArray.bind at 1. unfold SnapshotArray.length at 1.
  destruct (List.length snapshots =? 0)%nat eqn:Hlen; [reflexivity|].
  apply Nat.eqb_neq in Hlen.
  unfold SnapshotArray.bind at 1. unfold SnapshotArray.length at 1.
  unfold SnapshotArray.bind at 1. unfold SnapshotArray.get at 1.
  replace (Z.of_nat (List.length snapshots) - 1 <? 0) with false
    by (symmetry; apply Z.ltb_ge; lia).
  replace (Z.to_nat (Z.of_nat (List.length snapshots) - 1))
    with (List.length snapshots - 1)%nat by lia.
  destruct startDate as [startDate|].
  - unfold SnapshotArray.bind at 1. unfold SnapshotArray.find.
    pose proof (find_from_month_scan (start_month LocalTZA startDate) snapshots 0) as Hscan.
    rewrite Nat.sub_0_r in Hscan. cbv zeta. rewrite Hscan by lia.
    cbn [skipn].
    destruct (find _ snapshots) as [s|]; [reflexivity|].
    unfold SnapshotArray.bind, SnapshotArray.get. cbn [Z.ltb Z.compare Z.to_nat].
    destruct (nth_error snapshots 0); reflexivity.
  - unfold SnapshotArray.bind at 1. unfold SnapshotArray.get at 1.
    cbn [Z.ltb Z.compare Z.to_nat].
    destruct (nth_error snapshots 0) as [firstSnapshot|]; [|reflexivity].
    unfold SnapshotArray.bind, SnapshotArray.length.
    destruct (List.length snapshots <? 2)%nat; reflexivity.
Qed.

(** C8. A call of the composable's [calculateGrowth] completes normally and
    leaves the snapshot sequence unchanged, and its result is fixed by the
    sequence, the field, and the calendar year and month of the start date in
    the time zone of the host: two calls on the same sequence and field whose
    start dates fall in the same local year and month, each in the zone of
    its host, return the same result, and so do two calls with no start date
    whatever the zones. *)
Theorem calculateGrowth_deterministic_in_local_month :
  forall (zone1 zone2 : Z -> Z) (startDate1 startDate2 : JSDate.Date)
         valueKey currentValue (snapshots : SnapshotArray.Store),
    JSDate.getFullYear zone1 startDate1 = JSDate.getFullYear zone2 startDate2 ->
    JSDate.getMonth zone1 startDate1 = JSDate.getMonth zone2 startDate2 ->
    let run1 :=
      useGrowth_calculateGrowth zone1 (Some startDate1) valueKey currentValue snapshots in
    let run2 :=
      useGrowth_calculateGrowth zone2 (Some startDate2) valueKey currentValue (snd run1) in
    let all1 := useGrowth_calculateGrowth zone1 None valueKey currentValue snapshots in
    let all2 := useGrowth_calculateGrowth zone2 None valueKey currentValue (snd all1) in
    fst run1
    = SnapshotArray.Normal
        (calculateGrowth zone1 snapshots (Some startDate1) valueKey currentValue)
    /\ fst run2 = fst run1
    /\ snd run1 = snapshots /\ snd run2 = snapshots
    /\ fst all1
       = SnapshotArray.Normal (calculateGrowth zone1 snapshots None valueKey currentValue)
    /\ fst all2 = fst all1
    /\ snd all1 = snapshots /\ snd all2 = snapshots.
Proof.
  intros zone1 zone2 startDate1 startDate2 valueKey currentValue snapshots Hy Hm
         run1 run2 all1 all2.
  subst run2 all2. subst run1 all1.
  repeat (rewrite useGrowth_calculateGrowth_run; cbn [fst snd]).
  assert (Hkey : start_month zone1 startDate1 = start_month zone2 startDate2).
  { unfold start_month. now rewrite Hy, Hm. }
  repeat split.
  unfold calculateGrowth. now rewrite Hkey.
Qed.

(** The same instant, 2024-02-01T00:00:00Z, is in February on a host on UTC
    and in January on a host five hours behind UTC: on the months 2024-01,
    2024-02, 2024-03 with net worth 1000, 1100, 1300 the first host gets a
    growth of 200 and the second one of 300, with the same sequence, start
    date, field and current value. *)
Lemma calculateGrowth_depends_on_host_zone :
  fst (useGrowth_calculateGrowth (fun _ => 0)
         (Some (JSDate.TimeValue 1706745600000)) K_netWorth 0%float
         [snapshot "2024-01" 1000 0 1000; snapshot "2024-02" 1100 0 1100;
          snapshot "2024-03" 1300 0 1300]%float)
  = SnapshotArray.Normal {| growth := 200%float; percentage := 18.181818181818183%float |}
  /\ fst (useGrowth_calculateGrowth (fun _ => -18000000)
            (Some (JSDate.TimeValue 1706745600000)) K_netWorth 0%float
            [snapshot "2024-01" 1000 0 1000; snapshot "2024-02" 1100 0 1100;
             snapshot "2024-03" 1300 0 1300]%float)
     = SnapshotArray.Normal {| growth := 300%float; percentage := 30%float |}
  /\ fst (useGrowth_calculateGrowth (fun _ => 0)
            (Some (JSDate.TimeValue 1706745600000)) K_netWorth 0%float
            [snapshot "2024-01" 1000 0 1000; snapshot "2024-02" 1100 0 1100;
             snapshot "2024-03" 1300 0 1300]%float)
     <> fst (useGrowth_calculateGrowth (fun _ => -18000000)
               (Some (JSDate.TimeValue 1706745600000)) K_netWorth 0%float
               [snapshot "2024-01" 1000 0 1000; snapshot "2024-02" 1100 0 1100;
                snapshot "2024-03" 1300 0 1300]%float).
Proof.
  rewrite !useGrowth_calculateGrowth_run. cbn [fst].
  split; [reflexivity|]. split; [reflexivity|].
  intros H.
  apply (f_equal (fun c => match c with
                           | SnapshotArray.Normal r => PrimFloat.eqb (growth r) 300
                           | SnapshotArray.Throw _ => false
                           end)) in H.
  vm_compute in H. discriminate.
Qed.

(** 2024-02-01T00:00:00Z on a host on UTC and 2024-02-01T05:00:00Z on a host
    five hours behind UTC are both the first of February 2024 at midnight,
    local time: the two hosts get the same growth. *)
Lemma calculateGrowth_deterministic_in_local_month_witness :
  fst (useGrowth_calculateGrowth (fun _ => -18000000)
         (Some (JSDate.TimeValue 1706763600000)) K_netWorth 0%float
         [snapshot "2024-01" 1000 0 1000; snapshot "2024-02" 1100 0 1100;
          snapshot "2024-03" 1300 0 1300]%float)
  = fst (useGrowth_calculateGrowth (fun _ => 0) (Some (JSDate.TimeValue 1706745600000))
           K_netWorth 0%float
           [snapshot "2024-01" 1000 0 1000; snapshot "2024-02" 1100 0 1100;
            snapshot "2024-03" 1300 0 1300]%float).
Proof.
  pose proof (calculateGrowth_deterministic_in_local_month
                (fun _ => 0) (fun _ => -18000000)
                (JSDate.TimeValue 1706745600000) (JSDate.TimeValue 1706763600000)
                K_netWorth 0%float
                [snapshot "2024-01" 1000 0 1000; snapshot "2024-02" 1100 0 1100;
                 snapshot "2024-03" 1300 0 1300]%float
                eq_refl eq_refl) as H.
  cbv zeta in H. destruct H as (_ & H2 & Hs & _).
  rewrite Hs in H2. exact H2.
Defined.

(* ================================================================== *)
(** ** chartData *)
(* ================================================================== *)

Lemma float_le_zero_not_pos :
  forall a : float, (a <=? 0)%float = true -> (0 <? a)%float = false.
Proof.
  intros a. rewrite leb_spec, ltb_spec.
  change (Prim2SF 0%float) with (SpecFloat.S754_zero false).
  destruct (Prim2SF a) as [s | s | | s m e]; try reflexivity; try discriminate.
  - destruct s; simpl; [reflexivity | discriminate].
  - destruct s; [reflexivity | discriminate].
Qed.

Lemma has_balances_spec :
  forall s,
    has_balances s = true <->
    (0 <? assetsTotal s)%float = true \/ (0 <? liabilitiesTotal s)%float = true.
Proof.
  intros s. unfold has_balances. apply orb_true_iff.
Qed.

(** C10. The chart series is made of exactly the cached snapshots whose
    assets total or liabilities total is greater than 0, in their original
    order and numbered from 0; a snapshot whose two totals are at most 0 is
    dropped, so the series can skip a calendar month of a gap-free snapshot
    sequence. *)
Theorem chartData_keeps_positive_months :
  forall (short_month_label : string -> string) monthlySnapshots,
    let series := chartData short_month_label monthlySnapshots in
    let kept := filter has_balances monthlySnapshots in
    (forall s, In s kept <->
               In s monthlySnapshots /\
               ((0 <? assetsTotal s)%float = true \/
                (0 <? liabilitiesTotal s)%float = true))
    /\ Subsequence kept monthlySnapshots
    /\ List.length series = List.length kept
    /\ (forall i, nth_error series i
                  = option_map (fun s => chart_point short_month_label s i)
                               (nth_error kept i))
    /\ map Chart.month series = map month kept
    /\ (forall s, (assetsTotal s <=? 0)%float = true ->
                  (liabilitiesTotal s <=? 0)%float = true ->
                  ~ In s kept)
    /\ (exists gap_free,
          consecutive_months (map month gap_free) = true /\
          consecutive_months
            (map Chart.month (chartData short_month_label gap_free)) = false).
Proof.
  intros short_month_label monthlySnapshots series kept.
  subst series kept. unfold chartData.
  repeat apply conj.
  - intros s. rewrite filter_In, has_balances_spec. reflexivity.
  - apply filter_Subsequence.
  - apply map_index_length.
  - intros i. now rewrite map_index_nth.
  - now apply map_index_map.
  - intros s Ha Hl Hin. apply filter_In in Hin. destruct Hin as [_ Hkeep].
    unfold has_balances in Hkeep.
    now rewrite (float_le_zero_not_pos _ Ha), (float_le_zero_not_pos _ Hl) in Hkeep.
  - exists [snapshot "2024-01" 100 0 100; snapshot "2024-02" 0 0 0;
            snapshot "2024-03" 50 0 50]%float.
    split; reflexivity.
Qed.

(* ================================================================== *)
(** ** The accounts composable: invalid ids and mutations *)
(* ================================================================== *)

Section AccountsFacts.
Variable env : Collaborators.

Lemma console_error_untouched :
  forall args (w : World env), returns_untouched w (console_error env args w).
Proof.
  intros args w. unfold returns_untouched, console_error.
  eexists. split; [reflexivity|]. simpl. auto.
Qed.

Lemma write_reload_resolved :
  forall c op (w w' : World env),
    bind env (await_write env c op) (fun _ => loadSnapshots env) w = Resolved tt w'
    <-> written_then_reloaded c op w w'.
Proof.
  intros c op w w'. unfold written_then_reloaded, bind, await_write, loadSnapshots.
  simpl. destruct (op (db w)) as [d|] eqn:Hop; simpl.
  - destruct (rebuild env d) as [snaps|] eqn:Hre; simpl.
    + unfold set_cache, record_call, set_db; simpl. rewrite <- app_assoc. simpl.
      split.
      * intros H. inversion H. now exists d, snaps.
      * intros (d' & snaps' & Hd & Hs & ->).
        inversion Hd; subst d'. rewrite Hre in Hs. now inversion Hs.
    + split; [discriminate|].
      intros (d' & snaps' & Hd & Hs & _). inversion Hd; subst d'. congruence.
  - split; [discriminate|]. intros (d' & snaps' & Hd & _). discriminate.
Qed.

Lemma written_then_reloaded_cache :
  forall c op (w w' : World env),
    written_then_reloaded c op w w' ->
    op (db w) = Some (db w') /\ rebuild env (db w') = Some (cache w').
Proof.
  intros c op w w' (d & snaps & Hd & Hs & ->). simpl. auto.
Qed.

Lemma date_or_today_resolved :
  forall date (w : World env),
    date_or_today env date w
    = Resolved
        (match date with
         | Some (String c d) => String c d
         | _ => JS.slice0 10 (JSDate.toISOString (clock w))
         end) w.
Proof.
  intros [[|c d]|] w; reflexivity.
Qed.

Lemma nth_error_appended {A : Type} :
  forall (l : list A) a rest, nth_error (l ++ a :: rest) (List.length l) = Some a.
Proof.
  intros l a rest. rewrite nth_error_app2 by apply Nat.le_refl.
  now rewrite Nat.sub_diag.
Qed.

Lemma next_call_write_reload :
  forall c op (w : World env),
    next_call w (bind env (await_write env c op) (fun _ => loadSnapshots env) w)
    = Some c.
Proof.
  intros c op w. unfold next_call, bind, await_write, loadSnapshots. simpl.
  destruct (op (db w)) as [d|]; simpl.
  - destruct (rebuild env d); simpl; rewrite <- app_assoc; apply nth_error_appended.
  - apply nth_error_appended.
Qed.

End AccountsFacts.

(** C5. For an account id string that [parseInt] does not read as a number,
    [getBalanceHistory] resolves with the empty list, and [updateBalance],
    [updateAccount] and [deleteAccount] resolve without a call to the
    database or to the snapshot reload, leaving store and cache as they
    were; none of the four rejects. *)
Theorem invalid_account_id_is_ignored :
  forall (env : Collaborators) accountId amount date data (w : World env),
    JS.isNaN (JS.parseInt10 accountId) = true ->
    getBalanceHistory env (IdString accountId) w = Resolved [] w
    /\ returns_untouched w (updateBalance env accountId amount date w)
    /\ returns_untouched w (updateAccount env accountId data w)
    /\ returns_untouched w (deleteAccount env accountId w).
Proof.
  intros env accountId amount date data w Hnan.
  unfold getBalanceHistory, updateBalance, updateAccount, deleteAccount.
  rewrite Hnan.
  repeat split; try apply console_error_untouched.
Qed.

(** The id [abc] on an empty store. *)
Lemma invalid_account_id_is_ignored_witness :
  getBalanceHistory memory_store (IdString "abc") (memory_world [] [] 0 [])
  = Resolved [] (memory_world [] [] 0 [])
  /\ returns_untouched (memory_world [] [] 0 [])
       (deleteAccount memory_store "abc" (memory_world [] [] 0 [])).
Proof.
  pose proof (invalid_account_id_is_ignored memory_store "abc" 10%float None
                {| AccountUpdate.name := "Savings"; AccountUpdate.bank := "Bank";
                   AccountUpdate.category := "Cash"; AccountUpdate.owner := me;
                   AccountUpdate.notes := None |}
                (memory_world [] [] 0 []) eq_refl) as H.
  exact (conj (proj1 H) (proj2 (proj2 (proj2 H)))).
Defined.

(** C6. Each mutation resolves exactly when its database write succeeded and
    the snapshot reload that follows it succeeded: the write is the first
    call, the reload the second, the reload reads the store the write
    produced, and the cache of the world in which the call resolves is the
    result of that reload. This holds for [addAccount], and for
    [updateBalance], [updateAccount] and [deleteAccount] on an id that
    [parseInt] reads as a number. *)
Theorem mutation_reloads_after_write :
  forall (env : Collaborators) account accountId amount date data (w w' : World env),
    JS.isNaN (JS.parseInt10 accountId) = false ->
    let numericId := JS.parseInt10 accountId in
    (addAccount env account w = Resolved tt w' <->
     written_then_reloaded (CallDbAddAccount account) (dbAddAccount env account) w w')
    /\ (updateBalance env accountId amount date w = Resolved tt w' <->
        exists dateStr,
          date_or_today env date w = Resolved dateStr w /\
          written_then_reloaded (CallDbUpdateBalance numericId amount dateStr)
            (dbUpdateBalance env numericId amount dateStr) w w')
    /\ (updateAccount env accountId data w = Resolved tt w' <->
        written_then_reloaded (CallDbUpdateAccount numericId data)
          (dbUpdateAccount env numericId data) w w')
    /\ (deleteAccount env accountId w = Resolved tt w' <->
        written_then_reloaded (CallDbDeleteAccount numericId)
          (dbDeleteAccount env numericId) w w')
    /\ (forall c op, written_then_reloaded c op w w' ->
                     op (db w) = Some (db w') /\
                     rebuild env (db w') = Some (cache w')).
Proof.
  intros env account accountId amount date data w w' Hid numericId.
  unfold addAccount, updateBalance, updateAccount, deleteAccount.
  rewrite Hid. fold numericId.
  repeat apply conj; try apply write_reload_resolved.
  - unfold bind at 1. rewrite date_or_today_resolved.
    rewrite write_reload_resolved.
    intros H. eexists. split; [reflexivity | exact H].
  - intros (dateStr & Hdate & H).
    unfold bind at 1. rewrite date_or_today_resolved in *.
    inversion Hdate as [Hd]. rewrite write_reload_resolved. now rewrite Hd.
  - intros c op. apply written_then_reloaded_cache.
Qed.

(** A balance update for account 7 on an empty store. *)
Lemma mutation_reloads_after_write_witness :
  written_then_reloaded (env := memory_store)
    (CallDbUpdateBalance 7%float 250%float "2024-05-01")
    (dbUpdateBalance memory_store 7%float 250%float "2024-05-01")
    (memory_world [] [] 0 [])
    (memory_world [(7%float, {| date := "2024-05-01"; value := 250%float |})]
       [250%float] 0
       [CallDbUpdateBalance 7%float 250%float "2024-05-01"; CallLoadSnapshots]).
Proof.
  pose proof (mutation_reloads_after_write memory_store
                {| AccountInput.name := "Savings"; AccountInput.bank := "Bank";
                   AccountInput.category := "Cash"; AccountInput.owner := joint;
                   AccountInput.initialBalance := 100%float;
                   AccountInput.notes := None |}
                "7" 250%float (Some "2024-05-01")
                {| AccountUpdate.name := "Savings"; AccountUpdate.bank := "Bank";
                   AccountUpdate.category := "Cash"; AccountUpdate.owner := joint;
                   AccountUpdate.notes := None |}
                (memory_world [] [] 0 [])
                (memory_world
                   [(7%float, {| date := "2024-05-01"; value := 250%float |})]
                   [250%float] 0
                   [CallDbUpdateBalance 7%float 250%float "2024-05-01";
                    CallLoadSnapshots])
                eq_refl) as H.
  cbv zeta in H.
  destruct (proj1 (proj1 (proj2 H)) eq_refl) as (dateStr & Hdate & Hdone).
  injection Hdate as <-. exact Hdone.
Defined.

(* ================================================================== *)
(** ** Facts about the calendar *)
(* ================================================================== *)

Lemma DayFromYear_step :
  forall y, JSDate.DayFromYear (y + 1) = JSDate.DayFromYear y + JSDate.DaysInYear y.
Proof.
  intros y. unfold JSDate.DayFromYear, JSDate.DaysInYear.
  destruct (Z.eqb_spec (y mod 4) 0) as [H4|H4];
  destruct (Z.eqb_spec (y mod 100) 0) as [H100|H100];
  destruct (Z.eqb_spec (y mod 400) 0) as [H400|H400]; cbn [negb];
  Z.div_mod_to_equations; lia.
Qed.

Lemma DaysInYear_range :
  forall y, 365 <= JSDate.DaysInYear y <= 366.
Proof.
  intros y. unfold JSDate.DaysInYear.
  destruct (y mod 4 =? 0), (y mod 100 =? 0), (y mod 400 =? 0); cbn [negb]; lia.
Qed.

(** [YearFromTime t] is the year whose days contain the day of [t]. *)
Lemma YearFromTime_spec :
  forall t,
    JSDate.DayFromYear (JSDate.YearFromTime t) <= JSDate.Day t
    < JSDate.DayFromYear (JSDate.YearFromTime t + 1).
Proof.
  intros t. unfold JSDate.YearFromTime.
  set (d := JSDate.Day t). clearbody d. cbv zeta.
  set (y0 := 1970 + d * 400 / 146097).
  assert (Hlo : JSDate.DayFromYear (y0 - 1) <= d).
  { unfold JSDate.DayFromYear, y0. Z.div_mod_to_equations. lia. }
  assert (Hhi : d < JSDate.DayFromYear (y0 + 1 + 1)).
  { unfold JSDate.DayFromYear, y0. Z.div_mod_to_equations. lia. }
  destruct (Z.leb_spec (JSDate.DayFromYear (y0 + 1)) d);
    [|destruct (Z.leb_spec (JSDate.DayFromYear y0) d)]; try lia.
  replace (y0 - 1 + 1) with y0 by lia. lia.
Qed.

Lemma InLeapYear_range :
  forall t, 0 <= JSDate.InLeapYear t <= 1.
Proof.
  intros t. unfold JSDate.InLeapYear. destruct (_ =? _); lia.
Qed.

Lemma DayWithinYear_range :
  forall t, 0 <= JSDate.DayWithinYear t < 365 + JSDate.InLeapYear t.
Proof.
  intros t. unfold JSDate.DayWithinYear, JSDate.InLeapYear.
  pose proof (YearFromTime_spec t) as H.
  rewrite DayFromYear_step in H.
  pose proof (DaysInYear_range (JSDate.YearFromTime t)).
  destruct (Z.eqb_spec (JSDate.DaysInYear (JSDate.YearFromTime t)) 366); lia.
Qed.

Lemma MonthFromTime_range :
  forall t, 0 <= JSDate.MonthFromTime t <= 11.
Proof.
  intros t. unfold JSDate.MonthFromTime. cbv zeta.
  repeat match goal with |- context [if ?b then _ else _] => destruct b end; lia.
Qed.

Lemma DateFromTime_range :
  forall t, 1 <= JSDate.DateFromTime t <= 31.
Proof.
  intros t.
  pose proof (DayWithinYear_range t) as Hd. pose proof (InLeapYear_range t) as Hl.
  unfold JSDate.DateFromTime, JSDate.MonthFromTime. cbv zeta.
  repeat match goal with
         | |- context [if ?a <? ?b then _ else _] => destruct (Z.ltb_spec a b)
         end; lia.
Qed.

(** The epoch, a leap day, the last millisecond of 1969, and the two ends of
    the four-digit years. *)
Example toISOString_samples :
  map JSDate.toISOString
    [0; 1709251199999; -1; 253402300799999; 253402300800000; -62167219200001]
  = ["1970-01-01T00:00:00.000Z"; "2024-02-29T23:59:59.999Z";
     "1969-12-31T23:59:59.999Z"; "9999-12-31T23:59:59.999Z";
     "+010000-01-01T00:00:00.000Z"; "-000001-12-31T23:59:59.999Z"].
Proof. reflexivity. Qed.

Example parseInt10_samples :
  map JS.parseInt10 ["12"; " 42abc"; "-15.9"; "+7"; "0x10"; "-0"]
  = [12; 42; -15; 7; 0; -0]%float
  /\ map (fun s => JS.isNaN (JS.parseInt10 s)) ["abc"; ""; "-"; "12"]
     = [true; true; true; false].
Proof. split; reflexivity. Qed.

(* ================================================================== *)
(** ** The default date of a balance update *)
(* ================================================================== *)

Lemma string_length_append :
  forall a b : string, String.length (a ++ b) = (String.length a + String.length b)%nat.
Proof.
  induction a as [|c a IH]; intros b; simpl; [reflexivity|]. now rewrite IH.
Qed.

Lemma substring_append_prefix :
  forall a b : string, substring 0 (String.length a) (a ++ b) = a.
Proof.
  induction a as [|c a IH]; intros b; simpl.
  - now destruct b.
  - now rewrite IH.
Qed.

Lemma digits_length :
  forall k n, String.length (JSDate.digits k n) = k.
Proof.
  induction k as [|k IH]; intros n; simpl; [reflexivity|].
  rewrite string_length_append, IH. simpl. lia.
Qed.

Lemma iso_day_length :
  forall t,
    0 <= JSDate.YearFromTime t <= 9999 ->
    String.length (JSDate.iso_day t) = 10%nat.
Proof.
  intros t [Hlo Hhi]. unfold JSDate.iso_day, JSDate.iso_year.
  apply Z.leb_le in Hlo, Hhi. rewrite Hlo, Hhi. cbn [andb].
  repeat (rewrite string_length_append || rewrite digits_length).
  reflexivity.
Qed.

(** For a year of four digits, the first ten characters of the ISO timestamp
    are the UTC calendar day. *)
Lemma slice_toISOString :
  forall t,
    0 <= JSDate.YearFromTime t <= 9999 ->
    JS.slice0 10 (JSDate.toISOString t) = JSDate.iso_day t.
Proof.
  intros t Hy. unfold JS.slice0, JSDate.toISOString.
  rewrite <- (iso_day_length t Hy) at 1. apply substring_append_prefix.
Qed.

(** C9. On an id that [parseInt] reads as a number, the first call of
    [updateBalance] is the database update. When the date argument is omitted,
    undefined or the empty string, the date it is given is the first ten
    characters of the ISO timestamp of the clock, which for a four-digit year
    is the UTC calendar day [YYYY-MM-DD]; that day can differ from the
    calendar day of the host's time zone. Any other date string is passed on
    as it is. *)
Theorem updateBalance_default_date_is_utc_day :
  forall (env : Collaborators) accountId amount date (w : World env),
    JS.isNaN (JS.parseInt10 accountId) = false ->
    let numericId := JS.parseInt10 accountId in
    let now := clock w in
    let passed := next_call w (updateBalance env accountId amount date w) in
    (date = None \/ date = Some "" ->
     passed = Some (CallDbUpdateBalance numericId amount
                      (JS.slice0 10 (JSDate.toISOString now))))
    /\ (forall d, date = Some d -> d <> "" ->
                  passed = Some (CallDbUpdateBalance numericId amount d))
    /\ (0 <= JSDate.YearFromTime now <= 9999 ->
        JS.slice0 10 (JSDate.toISOString now)
        = JSDate.digits 4 (JSDate.YearFromTime now) ++ "-" ++
          JSDate.digits 2 (JSDate.MonthFromTime now + 1) ++ "-" ++
          JSDate.digits 2 (JSDate.DateFromTime now))
    /\ (exists LocalTZA t,
          JS.slice0 10 (JSDate.toISOString t)
          <> JS.slice0 10 (JSDate.toISOString (JSDate.LocalTime LocalTZA t))).
Proof.
  intros env accountId amount date w Hid numericId now passed.
  assert (Hpassed :
            passed = Some (CallDbUpdateBalance numericId amount
                             match date with
                             | Some (String c d) => String c d
                             | _ => JS.slice0 10 (JSDate.toISOString now)
                             end)).
  { subst passed. unfold updateBalance. rewrite Hid. fold numericId.
    unfold bind at 1. rewrite date_or_today_resolved.
    apply next_call_write_reload. }
  repeat apply conj.
  - intros [-> | ->]; exact Hpassed.
  - intros d -> Hd. destruct d as [|c d]; [congruence | exact Hpassed].
  - intros Hy. rewrite (slice_toISOString now Hy). unfold JSDate.iso_day, JSDate.iso_year.
    destruct Hy as [Hlo Hhi]. apply Z.leb_le in Hlo, Hhi. now rewrite Hlo, Hhi.
  - exists (fun _ => -18000000), 1704074400000. vm_compute. discriminate.
Qed.

(** Account 7, no date, the clock at 2024-01-01T02:00:00Z. *)
Lemma updateBalance_default_date_is_utc_day_witness :
  next_call (memory_world [] [] 1704074400000 [])
    (updateBalance memory_store "7" 250%float None
       (memory_world [] [] 1704074400000 []))
  = Some (CallDbUpdateBalance 7%float 250%float "2024-01-01").
Proof.
  exact (proj1 (updateBalance_default_date_is_utc_day memory_store "7" 250%float None
                  (memory_world [] [] 1704074400000 []) eq_refl)
               (or_introl eq_refl)).
Defined.

(* ================================================================== *)
(** ** The accounts composable: reads and failed mutations *)
(* ================================================================== *)

Section AccountsOutcomes.
Variable env : Collaborators.

Lemma write_rejected :
  forall c op (w : World env),
    op (db w) = None ->
    rejected_after w [c]
      (bind env (await_write env c op) (fun _ => loadSnapshots env) w).
Proof.
  intros c op w Hop. unfold rejected_after, bind, await_write. simpl.
  rewrite Hop. eexists. split; reflexivity.
Qed.

Lemma reload_rejected :
  forall c op d (w : World env),
    op (db w) = Some d -> rebuild env d = None ->
    rejected_keeping_cache w d [c; CallLoadSnapshots]
      (bind env (await_write env c op) (fun _ => loadSnapshots env) w).
Proof.
  intros c op d w Hop Hre.
  unfold rejected_keeping_cache, bind, await_write, loadSnapshots. simpl.
  rewrite Hop. simpl. rewrite Hre. eexists. split; [reflexivity|]. simpl.
  rewrite <- app_assoc. auto.
Qed.

Lemma updateBalance_valid :
  forall accountId amount date (w : World env),
    JS.isNaN (JS.parseInt10 accountId) = false ->
    updateBalance env accountId amount date w
    = bind env
        (await_write env
           (CallDbUpdateBalance (JS.parseInt10 accountId) amount
              (passed_date date (clock w)))
           (dbUpdateBalance env (JS.parseInt10 accountId) amount
              (passed_date date (clock w))))
        (fun _ => loadSnapshots env) w.
Proof.
  intros accountId amount date w Hid. unfold updateBalance. rewrite Hid.
  unfold bind at 1. now rewrite date_or_today_resolved.
Qed.

End AccountsOutcomes.

(** X1. On an id that is a number, [getBalanceHistory] makes one call, the
    read of that account's balances, and nothing else: store and cache are
    left as they were and no reload is started. It resolves exactly when the
    read succeeds, with one entry per stored balance, in the stored order,
    carrying that balance's date and value. *)
Theorem getBalanceHistory_reads_once :
  forall (env : Collaborators) accountId (w : World env),
    let numericId :=
      match accountId with
      | IdNumber n => n
      | IdString s => JS.parseInt10 s
      end in
    JS.isNaN numericId = false ->
    let o := getBalanceHistory env accountId w in
    db (final_world o) = db w
    /\ cache (final_world o) = cache w
    /\ calls (final_world o) = (calls w ++ [CallGetAccountBalances numericId])%list
    /\ (forall entries w',
          o = Resolved entries w' <->
          exists balances,
            getAccountBalances env numericId (db w) = Some balances /\
            entries = map (fun b => {| date := balance_date env b;
                                       value := balance_value env b |}) balances /\
            w' = record_call env (CallGetAccountBalances numericId) w)
    /\ (forall entries w',
          o = Resolved entries w' ->
          exists balances,
            getAccountBalances env numericId (db w) = Some balances /\
            List.length entries = List.length balances /\
            map date entries = map (balance_date env) balances /\
            map value entries = map (balance_value env) balances).
Proof.
  intros env accountId w numericId Hid o.
  assert (Ho : o = match getAccountBalances env numericId (db w) with
                   | Some balances =>
                       Resolved
                         (map (fun b => {| date := balance_date env b;
                                           value := balance_value env b |}) balances)
                         (record_call env (CallGetAccountBalances numericId) w)
                   | None => Rejected (record_call env (CallGetAccountBalances numericId) w)
                   end).
  { subst o. unfold getBalanceHistory. fold numericId. rewrite Hid.
    unfold bind, await_getAccountBalances, ret. simpl.
    now destruct (getAccountBalances env numericId (db w)). }
  assert (Hiff : forall entries w',
            o = Resolved entries w' <->
            exists balances,
              getAccountBalances env numericId (db w) = Some balances /\
              entries = map (fun b => {| date := balance_date env b;
                                         value := balance_value env b |}) balances /\
              w' = record_call env (CallGetAccountBalances numericId) w).
  { intros entries w'. rewrite Ho.
    destruct (getAccountBalances env numericId (db w)) as [balances|].
    - split.
      + intros H. inversion H. now exists balances.
      + intros (b' & Hb & -> & ->). now inversion Hb.
    - split; [discriminate|]. intros (b' & Hb & _). discriminate. }
  repeat apply conj.
  - rewrite Ho. now destruct (getAccountBalances env numericId (db w)).
  - rewrite Ho. now destruct (getAccountBalances env numericId (db w)).
  - rewrite Ho. now destruct (getAccountBalances env numericId (db w)).
  - exact Hiff.
  - intros entries w' H. apply Hiff in H. destruct H as (balances & Hb & -> & _).
    exists balances. rewrite length_map, !map_map. simpl. auto.
Qed.

(** Account 7 with two stored balances. *)
Lemma getBalanceHistory_reads_once_witness :
  getBalanceHistory memory_store (IdString "7")
    (memory_world
       [(7%float, {| date := "2024-01-05"; value := 100%float |});
        (8%float, {| date := "2024-01-09"; value := 5%float |});
        (7%float, {| date := "2024-02-05"; value := 120%float |})] [] 0 [])
  = Resolved
      [{| date := "2024-01-05"; value := 100%float |};
       {| date := "2024-02-05"; value := 120%float |}]
      (memory_world
         [(7%float, {| date := "2024-01-05"; value := 100%float |});
          (8%float, {| date := "2024-01-09"; value := 5%float |});
          (7%float, {| date := "2024-02-05"; value := 120%float |})] [] 0
         [CallGetAccountBalances 7%float]).
Proof.
  apply (proj1 (proj2 (proj2 (proj2
           (getBalanceHistory_reads_once memory_store (IdString "7")
              (memory_world
                 [(7%float, {| date := "2024-01-05"; value := 100%float |});
                  (8%float, {| date := "2024-01-09"; value := 5%float |});
                  (7%float, {| date := "2024-02-05"; value := 120%float |})] [] 0 [])
              eq_refl))))).
  eexists. split; [reflexivity|]. split; reflexivity.
Defined.

(** X2. When the database write of a mutation is rejected, the mutation is
    rejected as well and the snapshot reload is not started: the write is the
    only call made. *)
Theorem mutation_rejected_by_write :
  forall (env : Collaborators) account accountId amount date data (w : World env),
    JS.isNaN (JS.parseInt10 accountId) = false ->
    let numericId := JS.parseInt10 accountId in
    let dateStr := passed_date date (clock w) in
    (dbAddAccount env account (db w) = None ->
     rejected_after w [CallDbAddAccount account]
       (addAccount env account w))
    /\ (dbUpdateBalance env numericId amount dateStr (db w) = None ->
        rejected_after w [CallDbUpdateBalance numericId amount dateStr]
          (updateBalance env accountId amount date w))
    /\ (dbUpdateAccount env numericId data (db w) = None ->
        rejected_after w [CallDbUpdateAccount numericId data]
          (updateAccount env accountId data w))
    /\ (dbDeleteAccount env numericId (db w) = None ->
        rejected_after w [CallDbDeleteAccount numericId]
          (deleteAccount env accountId w)).
Proof.
  intros env account accountId amount date data w Hid numericId dateStr.
  repeat apply conj; intros Hop.
  - now apply write_rejected.
  - rewrite (updateBalance_valid env accountId amount date w Hid).
    now apply write_rejected.
  - unfold updateAccount. rewrite Hid. now apply write_rejected.
  - unfold deleteAccount. rewrite Hid. now apply write_rejected.
Qed.

(** Deleting account 7 from a store that has no such account. *)
Lemma mutation_rejected_by_write_witness :
  rejected_after (strict_world [] [] 0 []) [CallDbDeleteAccount 7%float]
    (deleteAccount strict_store "7" (strict_world [] [] 0 [])).
Proof.
  pose proof (mutation_rejected_by_write strict_store
                {| AccountInput.name := "Savings"; AccountInput.bank := "Bank";
                   AccountInput.category := "Cash"; AccountInput.owner := me;
                   AccountInput.initialBalance := 100%float;
                   AccountInput.notes := None |}
                "7" 250%float None
                {| AccountUpdate.name := "Savings"; AccountUpdate.bank := "Bank";
                   AccountUpdate.category := "Cash"; AccountUpdate.owner := me;
                   AccountUpdate.notes := None |}
                (strict_world [] [] 0 []) eq_refl) as H.
  cbv zeta in H. exact (proj2 (proj2 (proj2 H)) eq_refl).
Defined.

(** X3. When the write of a mutation succeeds and the snapshot reload that
    follows is rejected, the mutation is rejected with the store already
    written and the cache still holding its previous sequence. *)
Theorem mutation_rejected_by_reload :
  forall (env : Collaborators) account accountId amount date data (w : World env) d,
    JS.isNaN (JS.parseInt10 accountId) = false ->
    rebuild env d = None ->
    let numericId := JS.parseInt10 accountId in
    let dateStr := passed_date date (clock w) in
    (dbAddAccount env account (db w) = Some d ->
     rejected_keeping_cache w d [CallDbAddAccount account; CallLoadSnapshots]
       (addAccount env account w))
    /\ (dbUpdateBalance env numericId amount dateStr (db w) = Some d ->
        rejected_keeping_cache w d
          [CallDbUpdateBalance numericId amount dateStr; CallLoadSnapshots]
          (updateBalance env accountId amount date w))
    /\ (dbUpdateAccount env numericId data (db w) = Some d ->
        rejected_keeping_cache w d [CallDbUpdateAccount numericId data; CallLoadSnapshots]
          (updateAccount env accountId data w))
    /\ (dbDeleteAccount env numericId (db w) = Some d ->
        rejected_keeping_cache w d [CallDbDeleteAccount numericId; CallLoadSnapshots]
          (deleteAccount env accountId w)).
Proof.
  intros env account accountId amount date data w d Hid Hre numericId dateStr.
  repeat apply conj; intros Hop.
  - now apply reload_rejected.
  - rewrite (updateBalance_valid env accountId amount date w Hid).
    now apply reload_rejected.
  - unfold updateAccount. rewrite Hid. now apply reload_rejected.
  - unfold deleteAccount. rewrite Hid. now apply reload_rejected.
Qed.

(** A balance of [NaN] for account 7: the row is stored, the reload fails. *)
Lemma mutation_rejected_by_reload_witness :
  rejected_keeping_cache
    (strict_world [(7%float, {| date := "2024-01-05"; value := 100%float |})]
       [100%float] 0 [])
    ([(7%float, {| date := "2024-01-05"; value := 100%float |});
      (7%float, {| date := "2024-02-01"; value := PrimFloat.nan |})] : DB strict_store)
    [CallDbUpdateBalance 7%float PrimFloat.nan "2024-02-01"; CallLoadSnapshots]
    (updateBalance strict_store "7" PrimFloat.nan (Some "2024-02-01")
       (strict_world [(7%float, {| date := "2024-01-05"; value := 100%float |})]
          [100%float] 0 [])).
Proof.
  pose proof (mutation_rejected_by_reload strict_store
                {| AccountInput.name := "Savings"; AccountInput.bank := "Bank";
                   AccountInput.category := "Cash"; AccountInput.owner := me;
                   AccountInput.initialBalance := 100%float;
                   AccountInput.notes := None |}
                "7" PrimFloat.nan (Some "2024-02-01")
                {| AccountUpdate.name := "Savings"; AccountUpdate.bank := "Bank";
                   AccountUpdate.category := "Cash"; AccountUpdate.owner := me;
                   AccountUpdate.notes := None |}
                (strict_world [(7%float, {| date := "2024-01-05"; value := 100%float |})]
                   [100%float] 0 [])
                ([(7%float, {| date := "2024-01-05"; value := 100%float |});
                  (7%float, {| date := "2024-02-01"; value := PrimFloat.nan |})]
                 : DB strict_store)
                eq_refl eq_refl) as H.
  cbv zeta in H. exact (proj1 (proj2 H) eq_refl).
Defined.

(* ================================================================== *)
(** ** calculateGrowth: the order of month keys *)
(* ================================================================== *)

Lemma ascii_compare_refl :
  forall c : ascii, Ascii.compare c c = Eq.
Proof.
  intros c. unfold Ascii.compare. apply N.compare_refl.
Qed.

Lemma string_compare_refl :
  forall s : string, String.compare s s = Eq.
Proof.
  induction s as [|c s IH]; simpl; [reflexivity|]. now rewrite ascii_compare_refl.
Qed.

Lemma string_compare_lt_trans :
  forall a b c : string,
    String.compare a b = Lt -> String.compare b c = Lt -> String.compare a c = Lt.
Proof.
  induction a as [|x a IH]; intros [|y b] [|z c]; simpl; try discriminate; auto.
  unfold Ascii.compare.
  destruct (N.compare_spec (N_of_ascii x) (N_of_ascii y)) as [Exy|Lxy|Gxy];
    try discriminate;
  destruct (N.compare_spec (N_of_ascii y) (N_of_ascii z)) as [Eyz|Lyz|Gyz];
    try discriminate; intros Hab Hbc.
  - rewrite Exy, Eyz, N.compare_refl. eauto.
  - rewrite Exy. now apply N.compare_lt_iff in Lyz as ->.
  - rewrite <- Eyz. now apply N.compare_lt_iff in Lxy as ->.
  - assert (H : (N_of_ascii x < N_of_ascii z)%N) by lia.
    now apply N.compare_lt_iff in H as ->.
Qed.

Lemma string_ltb_trans :
  forall a b c : string,
    String.ltb a b = true -> String.ltb b c = true -> String.ltb a c = true.
Proof.
  unfold String.ltb. intros a b c Hab Hbc.
  destruct (String.compare a b) eqn:Eab; try discriminate.
  destruct (String.compare b c) eqn:Ebc; try discriminate.
  now rewrite (string_compare_lt_trans a b c Eab Ebc).
Qed.

Lemma StronglySorted_before_middle {A : Type} (R : A -> A -> Prop) :
  forall pre p rest,
    StronglySorted R (pre ++ p :: rest) -> forall q, In q pre -> R q p.
Proof.
  induction pre as [|a pre IH]; intros p rest Hs q Hq; [destruct Hq|].
  simpl in Hs. apply StronglySorted_inv in Hs. destruct Hs as [Hs Hall].
  destruct Hq as [<-|Hq].
  - rewrite Forall_forall in Hall. apply Hall. apply in_elt.
  - now apply (IH p rest).
Qed.

(** X4. With at least two snapshots, a start date whose key is at or before
    the first snapshot's month, and likewise a start date whose key is after
    every snapshot's month, gives exactly the all-time result. *)
Theorem calculateGrowth_whole_history :
  forall (LocalTZA : Z -> Z) first second rest startDate valueKey currentValue,
    let snapshots := first :: second :: rest in
    let startMonth := start_month LocalTZA startDate in
    JS.str_ge (month first) startMonth = true \/
    (forall p, In p snapshots -> JS.str_ge (month p) startMonth = false) ->
    calculateGrowth LocalTZA snapshots (Some startDate) valueKey currentValue
    = calculateGrowth LocalTZA snapshots None valueKey currentValue.
Proof.
  intros LocalTZA first second rest startDate valueKey currentValue snapshots
         startMonth H.
  subst snapshots. rewrite calculateGrowth_dated, calculateGrowth_all_time.
  fold startMonth. destruct H as [Hfirst|Hnone].
  - now rewrite (find_first_split _ [] first (second :: rest)
                   (fun p (Hp : In p []) => match Hp with end) Hfirst).
  - now rewrite (find_all_false _ _ Hnone).
Qed.

(** A start date in 2030 on a history that ends in 2024. *)
Lemma calculateGrowth_whole_history_witness :
  calculateGrowth (fun _ => 0)
    [snapshot "2024-01" 1000 0 1000; snapshot "2024-02" 1100 0 1100]%float
    (Some (JSDate.TimeValue 1900000000000)) K_netWorth 0%float
  = calculateGrowth (fun _ => 0)
    [snapshot "2024-01" 1000 0 1000; snapshot "2024-02" 1100 0 1100]%float
    None K_netWorth 0%float.
Proof.
  apply (calculateGrowth_whole_history (fun _ => 0)
           (snapshot "2024-01" 1000 0 1000)%float
           (snapshot "2024-02" 1100 0 1100)%float []
           (JSDate.TimeValue 1900000000000) K_netWorth 0%float).
  right. intros p [<-|[<-|[]]]; reflexivity.
Defined.

(** X5. On a history whose months ascend, the start snapshot is the one at
    the boundary: when a snapshot's month is at or after the start key and the
    month of the snapshot just before it is not, growth is measured from that
    snapshot to the last one. *)
Theorem calculateGrowth_boundary_snapshot :
  forall (LocalTZA : Z -> Z) pre p s post startDate valueKey currentValue,
    let snapshots := (pre ++ p :: s :: post)%list in
    let startMonth := start_month LocalTZA startDate in
    StronglySorted month_before snapshots ->
    JS.str_ge (month p) startMonth = false ->
    JS.str_ge (month s) startMonth = true ->
    calculateGrowth LocalTZA snapshots (Some startDate) valueKey currentValue
    = growth_between (value_at valueKey (last snapshots s)) (value_at valueKey s).
Proof.
  intros LocalTZA pre p s post startDate valueKey currentValue snapshots startMonth
         Hsorted Hp Hs.
  subst snapshots.
  assert (Hfind : find (fun q => JS.str_ge (month q) startMonth)
                    (pre ++ p :: s :: post) = Some s).
  { replace (pre ++ p :: s :: post)%list with ((pre ++ [p]) ++ s :: post)%list
      by now rewrite <- app_assoc.
    apply find_first_split; [|exact Hs].
    intros q Hq. apply in_app_or in Hq. destruct Hq as [Hq|[<-|[]]]; [|exact Hp].
    pose proof (StronglySorted_before_middle _ pre p (s :: post) Hsorted q Hq) as Hqp.
    unfold month_before in Hqp. unfold JS.str_ge in *.
    apply negb_false_iff in Hp. apply negb_false_iff.
    exact (string_ltb_trans _ _ _ Hqp Hp). }
  assert (Hne : (pre ++ p :: s :: post)%list <> []) by now destruct pre.
  destruct (pre ++ p :: s :: post)%list as [|first rest]; [congruence|].
  rewrite calculateGrowth_dated. fold startMonth. rewrite Hfind.
  now rewrite (last_default (first :: rest) first s Hne).
Qed.

(** A start date in February 2024 on a history of three months. *)
Lemma calculateGrowth_boundary_snapshot_witness :
  calculateGrowth (fun _ => 0)
    [snapshot "2024-01" 1000 0 1000; snapshot "2024-02" 1100 0 1100;
     snapshot "2024-03" 1300 0 1300]%float
    (Some (JSDate.TimeValue 1707531200000)) K_netWorth 0%float
  = growth_between 1300%float 1100%float.
Proof.
  apply (calculateGrowth_boundary_snapshot (fun _ => 0) []
           (snapshot "2024-01" 1000 0 1000)%float
           (snapshot "2024-02" 1100 0 1100)%float
           [snapshot "2024-03" 1300 0 1300]%float
           (JSDate.TimeValue 1707531200000) K_netWorth 0%float).
  - repeat constructor.
  - reflexivity.
  - reflexivity.
Defined.

Lemma forallb_Z_range (f : Z -> bool) :
  forall n lo,
    forallb f (map (fun k => lo + Z.of_nat k) (seq 0 n)) = true ->
    forall y, lo <= y < lo + Z.of_nat n -> f y = true.
Proof.
  intros n lo Hall y Hy. rewrite forallb_forall in Hall. apply Hall.
  apply in_map_iff. exists (Z.to_nat (y - lo)). split; [lia|].
  apply in_seq. lia.
Qed.

Lemma decimal_four_digits :
  forall y, 1000 <= y <= 9999 ->
            JS.string_of_integral (Some y) = JSDate.digits 4 y.
Proof.
  intros y Hy. apply String.eqb_eq.
  apply (forallb_Z_range
           (fun n => String.eqb (JS.string_of_integral (Some n)) (JSDate.digits 4 n))
           (Z.to_nat 9000) 1000).
  - vm_compute. reflexivity.
  - rewrite Z2Nat.id; lia.
Qed.

Lemma pad_two_digits :
  forall m, 1 <= m <= 12 ->
            JS.padStart (JS.string_of_integral (Some m)) 2 "0" = JSDate.digits 2 m.
Proof.
  intros m Hm.
  assert (H : m = 1 \/ m = 2 \/ m = 3 \/ m = 4 \/ m = 5 \/ m = 6 \/ m = 7 \/ m = 8
              \/ m = 9 \/ m = 10 \/ m = 11 \/ m = 12) by lia.
  repeat (destruct H as [->|H]; [reflexivity|]). subst m. reflexivity.
Qed.

Lemma string_compare_app :
  forall x y u v : string,
    String.length x = String.length y ->
    String.compare (x ++ u) (y ++ v)
    = match String.compare x y with
      | Eq => String.compare u v
      | r => r
      end.
Proof.
  induction x as [|c x IH]; intros [|d y] u v Hlen; simpl in *; try discriminate.
  - reflexivity.
  - destruct (Ascii.compare c d); auto.
Qed.

Lemma digit_char_compare :
  forall a b, Ascii.compare (JSDate.digit_char a) (JSDate.digit_char b)
              = Z.compare (a mod 10) (b mod 10).
Proof.
  intros a b. unfold Ascii.compare, JSDate.digit_char.
  assert (Ha : 0 <= a mod 10 < 10) by (apply Z.mod_pos_bound; lia).
  assert (Hb : 0 <= b mod 10 < 10) by (apply Z.mod_pos_bound; lia).
  rewrite !N_ascii_embedding by lia.
  rewrite Z2N.inj_compare by lia.
  apply Z.add_compare_mono_l.
Qed.

Lemma digits_compare :
  forall k a b,
    0 <= a < 10 ^ Z.of_nat k -> 0 <= b < 10 ^ Z.of_nat k ->
    String.compare (JSDate.digits k a) (JSDate.digits k b) = Z.compare a b.
Proof.
  induction k as [|k IH]; intros a b Ha Hb.
  - simpl in *. assert (a = 0) by lia. assert (b = 0) by lia. subst. reflexivity.
  - rewrite Nat2Z.inj_succ, Z.pow_succ_r in Ha, Hb by lia.
    cbn [JSDate.digits].
    rewrite string_compare_app by now rewrite !digits_length.
    rewrite IH by (Z.div_mod_to_equations; lia).
    cbn [String.compare]. rewrite digit_char_compare.
    destruct (Z.compare_spec (a / 10) (b / 10)) as [E|L|G].
    + destruct (Z.compare_spec (a mod 10) (b mod 10)) as [E'|L'|G'];
        symmetry; [apply Z.compare_eq_iff|apply Z.compare_lt_iff|apply Z.compare_gt_iff];
        Z.div_mod_to_equations; lia.
    + symmetry. apply Z.compare_lt_iff. Z.div_mod_to_equations; lia.
    + symmetry. apply Z.compare_gt_iff. Z.div_mod_to_equations; lia.
Qed.

Lemma month_key_compare :
  forall y1 m1 y2 m2,
    0 <= y1 <= 9999 -> 0 <= y2 <= 9999 -> 1 <= m1 <= 12 -> 1 <= m2 <= 12 ->
    String.compare (month_key y1 m1) (month_key y2 m2)
    = Z.compare (y1 * 12 + m1) (y2 * 12 + m2).
Proof.
  intros y1 m1 y2 m2 Hy1 Hy2 Hm1 Hm2. unfold month_key.
  rewrite string_compare_app by now rewrite !digits_length.
  rewrite (digits_compare 4) by (simpl; lia).
  cbn [String.append String.compare]. rewrite ascii_compare_refl.
  rewrite (digits_compare 2) by (simpl; lia).
  destruct (Z.compare_spec y1 y2) as [E|L|G].
  - subst. destruct (Z.compare_spec m1 m2);
      symmetry; [apply Z.compare_eq_iff|apply Z.compare_lt_iff|apply Z.compare_gt_iff]; lia.
  - symmetry. apply Z.compare_lt_iff. lia.
  - symmetry. apply Z.compare_gt_iff. lia.
Qed.

(** X6. For a start date whose local year has four digits without a leading
    zero (1000 to 9999), the start key is the [YYYY-MM] key of its local month,
    and the comparison of a snapshot's month key with it is the comparison of
    the two calendar months. Outside that range the keys are not ordered by
    time: a start date in year 10000 counts as earlier than January 2024. *)
Theorem start_month_orders_months :
  forall (LocalTZA : Z -> Z) t y m,
    let Y := JSDate.YearFromTime (JSDate.LocalTime LocalTZA t) in
    let M := JSDate.MonthFromTime (JSDate.LocalTime LocalTZA t) in
    1000 <= Y <= 9999 -> 0 <= y <= 9999 -> 1 <= m <= 12 ->
    start_month LocalTZA (JSDate.TimeValue t) = month_key Y (M + 1)
    /\ (JS.str_ge (month_key y m) (start_month LocalTZA (JSDate.TimeValue t)) = true
        <-> Y * 12 + (M + 1) <= y * 12 + m)
    /\ JS.str_ge (month_key 2024 1)
         (start_month (fun _ => 0) (JSDate.TimeValue 253402300800000)) = true.
Proof.
  intros LocalTZA t y m Y M HY Hy Hm.
  pose proof (MonthFromTime_range (JSDate.LocalTime LocalTZA t)) as HM. fold M in HM.
  assert (Hkey : start_month LocalTZA (JSDate.TimeValue t) = month_key Y (M + 1)).
  { unfold start_month, month_key. cbn [JSDate.getFullYear JSDate.getMonth option_map].
    fold Y M. rewrite (decimal_four_digits Y HY).
    now rewrite (pad_two_digits (M + 1)) by lia. }
  split; [exact Hkey|]. split; [|reflexivity].
  rewrite Hkey. unfold JS.str_ge, String.ltb.
  rewrite month_key_compare by lia.
  destruct (Z.compare_spec (y * 12 + m) (Y * 12 + (M + 1))) as [Hc|Hc|Hc]; simpl;
    split; intros Hcmp; try lia; try reflexivity; discriminate.
Qed.

(** A start date of 2023-01-01 against the month keys 2022-12 and 2023-01. *)
Lemma start_month_orders_months_witness :
  JS.str_ge (month_key 2022 12)
    (start_month (fun _ => 0) (JSDate.TimeValue 1672531200000)) = false
  /\ JS.str_ge (month_key 2023 1)
       (start_month (fun _ => 0) (JSDate.TimeValue 1672531200000)) = true.
Proof.
  split.
  - apply not_true_is_false. intros H.
    apply (proj1 (proj2 (start_month_orders_months (fun _ => 0) 1672531200000 2022 12
                           ltac:(vm_compute; intuition discriminate)
                           ltac:(lia) ltac:(lia)))) in H.
    vm_compute in H. now apply H.
  - apply (proj1 (proj2 (start_month_orders_months (fun _ => 0) 1672531200000 2023 1
                           ltac:(vm_compute; intuition discriminate)
                           ltac:(lia) ltac:(lia)))).
    vm_compute. discriminate.
Defined.

(* ================================================================== *)
(** ** calculateGrowth: the start snapshot *)
(* ================================================================== *)

Lemma str_ge_compare :
  forall a b, JS.str_ge a b = true <-> String.compare a b <> Lt.
Proof.
  intros a b. unfold JS.str_ge, String.ltb.
  destruct (String.compare a b); simpl; split; intros H; try reflexivity;
    try discriminate; congruence.
Qed.

Lemma str_lt_compare :
  forall a b, String.compare a b = Lt -> JS.str_ge a b = false.
Proof.
  intros a b H. unfold JS.str_ge, String.ltb. now rewrite H.
Qed.

(** C1. With a start date and a non-empty sequence, the start value is read
    from the first snapshot, in sequence order, whose month is not below the
    key of the start date in the order of strings; when every month is below
    the key, the first snapshot of the sequence is used. The key is the local
    year in decimal, a dash and the local month number on two digits, hence
    YYYY-MM for the years 1000 to 9999, and NaN-NaN for an invalid date. For
    the months 2024-01, 2024-02, 2024-03 with net worth 1000, 1100, 1300: a
    start date in January 2023 gives a growth of 300 and a percentage of 30
    (the first snapshot); a start date in February 2024 has the key 2024-02
    and starts from the snapshot of that very month, past the one of January
    (200 and 18.18...); one in March 2024 starts from the last snapshot (0 and
    0); one in April 2024 is after the history and falls back to the first
    snapshot (300 and 30). *)
Theorem calculateGrowth_start_snapshot :
  forall (LocalTZA : Z -> Z) snapshots startDate valueKey currentValue,
    snapshots <> [] ->
    let startMonth := start_month LocalTZA startDate in
    let result :=
      calculateGrowth LocalTZA snapshots (Some startDate) valueKey currentValue in
    (forall t,
        startDate = JSDate.TimeValue t ->
        let Y := JSDate.YearFromTime (JSDate.LocalTime LocalTZA t) in
        let M := JSDate.MonthFromTime (JSDate.LocalTime LocalTZA t) in
        startMonth
        = NilZero.string_of_int (Z.to_int Y) ++ "-" ++ JSDate.digits 2 (M + 1)
        /\ (1000 <= Y <= 9999 ->
            startMonth = JSDate.digits 4 Y ++ "-" ++ JSDate.digits 2 (M + 1)))
    /\ (startDate = JSDate.InvalidDate -> startMonth = "NaN-NaN")
    /\ (forall pre s post,
          snapshots = (pre ++ s :: post)%list ->
          (forall p, In p pre -> String.compare (month p) startMonth = Lt) ->
          String.compare (month s) startMonth <> Lt ->
          result = growth_between (value_at valueKey (last snapshots s))
                                  (value_at valueKey s))
    /\ ((forall p, In p snapshots -> String.compare (month p) startMonth = Lt) ->
        exists first rest,
          snapshots = first :: rest /\
          result = growth_between (value_at valueKey (last snapshots first))
                                  (value_at valueKey first))
    /\ (forall a1 l1 a2 l2 a3 l3,
          let history :=
            [snapshot "2024-01" a1 l1 1000%float; snapshot "2024-02" a2 l2 1100%float;
             snapshot "2024-03" a3 l3 1300%float] in
          let netWorthGrowth :=
            calculateGrowth LocalTZA history (Some startDate) K_netWorth currentValue in
          (JSDate.getFullYear LocalTZA startDate = Some 2023 ->
           JSDate.getMonth LocalTZA startDate = Some 0 ->
           startMonth = "2023-01" /\
           netWorthGrowth = {| growth := 300%float; percentage := 30%float |})
          /\ (JSDate.getFullYear LocalTZA startDate = Some 2024 ->
              JSDate.getMonth LocalTZA startDate = Some 1 ->
              startMonth = "2024-02" /\
              netWorthGrowth
              = {| growth := 200%float; percentage := 18.181818181818183%float |})
          /\ (JSDate.getFullYear LocalTZA startDate = Some 2024 ->
              JSDate.getMonth LocalTZA startDate = Some 2 ->
              startMonth = "2024-03" /\
              netWorthGrowth = {| growth := 0%float; percentage := 0%float |})
          /\ (JSDate.getFullYear LocalTZA startDate = Some 2024 ->
              JSDate.getMonth LocalTZA startDate = Some 3 ->
              startMonth = "2024-04" /\
              netWorthGrowth = {| growth := 300%float; percentage := 30%float |})).
Proof.
  intros LocalTZA snapshots startDate valueKey currentValue Hne startMonth result.
  destruct snapshots as [|first rest]; [congruence|].
  subst result. rewrite calculateGrowth_dated. fold startMonth.
  split; [|split; [|split; [|split]]].
  - intros t Ht. cbv zeta.
    set (Y := JSDate.YearFromTime (JSDate.LocalTime LocalTZA t)).
    set (M := JSDate.MonthFromTime (JSDate.LocalTime LocalTZA t)).
    pose proof (MonthFromTime_range (JSDate.LocalTime LocalTZA t)) as HM. fold M in HM.
    assert (Hkey : startMonth
                   = NilZero.string_of_int (Z.to_int Y) ++ "-" ++ JSDate.digits 2 (M + 1)).
    { subst startMonth startDate. unfold start_month.
      cbn [JSDate.getFullYear JSDate.getMonth option_map]. fold Y M.
      rewrite (pad_two_digits (M + 1)) by lia. reflexivity. }
    split; [exact Hkey|]. intros HY. rewrite Hkey.
    change (NilZero.string_of_int (Z.to_int Y)) with (JS.string_of_integral (Some Y)).
    now rewrite (decimal_four_digits Y HY).
  - intros ->. reflexivity.
  - intros pre s post Hsplit Hpre Hs.
    rewrite (last_default (first :: rest) first s Hne).
    rewrite Hsplit at 2.
    rewrite (find_first_split _ pre s post); [reflexivity| |].
    + intros p Hp. apply str_lt_compare. now apply Hpre.
    + now apply str_ge_compare.
  - intros Hnone. exists first, rest. split; [reflexivity|].
    rewrite (find_all_false (fun s => JS.str_ge (month s) startMonth)); [reflexivity|].
    intros p Hp. apply str_lt_compare. now apply Hnone.
  - intros a1 l1 a2 l2 a3 l3 history netWorthGrowth.
    subst netWorthGrowth history startMonth.
    split; [|split; [|split]]; intros Hy Hm;
      (split; [|rewrite calculateGrowth_dated]); unfold start_month;
      rewrite Hy, Hm; reflexivity.
Qed.

(** The three-month history read in a host on UTC with a start date of
    2024-02-10T02:13:20Z: the scan passes the snapshot of January and stops
    at the one of February, whose month equals the key. *)
Lemma calculateGrowth_start_snapshot_witness :
  calculateGrowth (fun _ => 0)
    [snapshot "2024-01" 1000 0 1000; snapshot "2024-02" 1100 0 1100;
     snapshot "2024-03" 1300 0 1300]%float
    (Some (JSDate.TimeValue 1707531200000)) K_netWorth 0%float
  = {| growth := 200%float; percentage := 18.181818181818183%float |}.
Proof.
  refine (proj1 (proj2 (proj2 (calculateGrowth_start_snapshot (fun _ => 0)
            [snapshot "2024-01" 1000 0 1000; snapshot "2024-02" 1100 0 1100;
             snapshot "2024-03" 1300 0 1300]%float
            (JSDate.TimeValue 1707531200000) K_netWorth 0%float _)))
            [snapshot "2024-01" 1000 0 1000]%float
            (snapshot "2024-02" 1100 0 1100)%float
            [snapshot "2024-03" 1300 0 1300]%float
            eq_refl _ _).
  - discriminate.
  - intros p [<-|[]]. reflexivity.
  - vm_compute. discriminate.
Defined.

(* ================================================================== *)
(** ** uniqueMonthIndices *)
(* ================================================================== *)

Lemma StringSet_has_add :
  forall x y s, StringSet.has x (StringSet.add y s) = String.eqb x y || StringSet.has x s.
Proof.
  intros x y s. unfold StringSet.add.
  destruct (StringSet.has y s) eqn:Hy.
  - destruct (String.eqb_spec x y) as [->|Hxy]; [now rewrite Hy|reflexivity].
  - unfold StringSet.has. rewrite existsb_app. simpl.
    rewrite orb_false_r. apply orb_comm.
Qed.

Lemma forEach_unseen_first_positions :
  forall points i seen indices,
    forEach_unseen points i seen indices
    = (indices ++ first_positions points i seen)%list.
Proof.
  induction points as [|d rest IH]; intros i seen indices; simpl.
  - now rewrite app_nil_r.
  - destruct (StringSet.has (Chart.formattedDate d) seen); simpl.
    + apply IH.
    + rewrite IH, <- app_assoc. reflexivity.
Qed.

Lemma first_positions_spec :
  forall points i seen k,
    In k (first_positions points i seen) <->
    exists n d,
      k = (i + n)%nat /\ nth_error points n = Some d /\
      StringSet.has (Chart.formattedDate d) seen = false /\
      forall j d', (j < n)%nat -> nth_error points j = Some d' ->
                   Chart.formattedDate d' <> Chart.formattedDate d.
Proof.
  induction points as [|d0 rest IH]; intros i seen k; simpl.
  - split; [intros []|]. intros (n & d & _ & Hn & _). now destruct n.
  - destruct (StringSet.has (Chart.formattedDate d0) seen) eqn:H0.
    + rewrite IH. split.
      * intros (n & d & -> & Hn & Hs & Hfirst).
        exists (S n), d. repeat split; [lia|exact Hn|exact Hs|].
        intros [|j] d' Hj Hd'; simpl in Hd'.
        -- inversion Hd'; subst d'. intros E. rewrite E in H0. congruence.
        -- apply (Hfirst j d'); [lia|exact Hd'].
      * intros (n & d & -> & Hn & Hs & Hfirst).
        destruct n as [|n]; simpl in Hn.
        -- inversion Hn; subst d. congruence.
        -- exists n, d. repeat split; [lia|exact Hn|exact Hs|].
           intros j d' Hj Hd'. apply (Hfirst (S j) d'); [lia|exact Hd'].
    + simpl. rewrite IH. split.
      * intros [<-|(n & d & -> & Hn & Hs & Hfirst)].
        -- exists 0%nat, d0. repeat split; [lia|exact H0|]. intros j d' Hj. lia.
        -- rewrite StringSet_has_add in Hs. apply orb_false_iff in Hs.
           destruct Hs as [Hne Hs]. apply String.eqb_neq in Hne.
           exists (S n), d. repeat split; [lia|exact Hn|exact Hs|].
           intros [|j] d' Hj Hd'; simpl in Hd'.
           ++ inversion Hd'; subst d'. congruence.
           ++ apply (Hfirst j d'); [lia|exact Hd'].
      * intros (n & d & -> & Hn & Hs & Hfirst).
        destruct n as [|n]; simpl in Hn.
        -- left. lia.
        -- right. exists n, d. repeat split; [lia|exact Hn| |].
           ++ rewrite StringSet_has_add. apply orb_false_iff. split; [|exact Hs].
              apply String.eqb_neq. intros E.
              apply (Hfirst 0%nat d0); [lia|reflexivity|now symmetry].
           ++ intros j d' Hj Hd'. apply (Hfirst (S j) d'); [lia|exact Hd'].
Qed.

Lemma first_positions_sorted :
  forall points i seen,
    StronglySorted lt (first_positions points i seen)
    /\ Forall (fun k => (i <= k)%nat) (first_positions points i seen).
Proof.
  induction points as [|d rest IH]; intros i seen; simpl.
  - split; constructor.
  - destruct (StringSet.has (Chart.formattedDate d) seen).
    + destruct (IH (S i) seen) as [Hs Hge]. split; [exact Hs|].
      eapply Forall_impl; [|exact Hge]. simpl. intros; lia.
    + destruct (IH (S i) (StringSet.add (Chart.formattedDate d) seen)) as [Hs Hge].
      split.
      * constructor; [exact Hs|]. eapply Forall_impl; [|exact Hge]. simpl. intros; lia.
      * constructor; [lia|]. eapply Forall_impl; [|exact Hge]. simpl. intros; lia.
Qed.

Lemma bounded_search (P : nat -> Prop) :
  (forall j, {P j} + {~ P j}) ->
  forall n, (forall j, (j < n)%nat -> ~ P j) \/ (exists j, (j < n)%nat /\ P j).
Proof.
  intros Pdec. induction n as [|n [Hno|(j & Hj & HP)]].
  - left. intros j Hj. lia.
  - destruct (Pdec n) as [HP|HnP].
    + right. exists n. split; [lia|exact HP].
    + left. intros j Hj. destruct (Nat.eq_dec j n) as [->|Hne]; [exact HnP|].
      apply Hno. lia.
  - right. exists j. split; [lia|exact HP].
Qed.

Lemma option_string_dec :
  forall a b : option string, {a = b} + {a <> b}.
Proof.
  decide equality. apply string_dec.
Qed.

(* ================================================================== *)
(** ** Sets of strings and of Numbers *)
(* ================================================================== *)

Lemma StringSet_has_delete :
  forall x y s,
    StringSet.has x (StringSet.delete y s) = negb (String.eqb y x) && StringSet.has x s.
Proof.
  intros x y s. unfold StringSet.has, StringSet.delete.
  induction s as [|z s IH]; simpl; [now rewrite andb_false_r|].
  destruct (String.eqb_spec z y) as [->|Hzy]; simpl.
  - rewrite IH. rewrite (String.eqb_sym x y).
    now destruct (String.eqb y x).
  - rewrite IH. destruct (String.eqb_spec x z) as [->|Hxz]; simpl; [|reflexivity].
    destruct (String.eqb_spec y z) as [->|_]; [congruence|reflexivity].
Qed.

Lemma StringSet_has_toggle :
  forall x y s,
    StringSet.has x (if StringSet.has y s then StringSet.delete y s
                     else StringSet.add y s)
    = xorb (String.eqb y x) (StringSet.has x s).
Proof.
  intros x y s. destruct (StringSet.has y s) eqn:Hy.
  - rewrite StringSet_has_delete.
    destruct (String.eqb_spec y x) as [<-|_]; simpl; [now rewrite Hy|].
    now destruct (StringSet.has x s).
  - rewrite StringSet_has_add, (String.eqb_sym x y).
    destruct (String.eqb_spec y x) as [<-|_]; simpl; [now rewrite Hy|reflexivity].
Qed.

(** Positive and negative zero are one element; every other Number is
    its own. *)
Definition merge_zeros (f : SpecFloat.spec_float) : SpecFloat.spec_float :=
  match f with
  | SpecFloat.S754_zero _ => SpecFloat.S754_zero false
  | _ => f
  end.

Lemma SFeqb_merge_zeros :
  forall a b,
    SpecFloat.SFeqb a b = true <->
    a <> SpecFloat.S754_nan /\ merge_zeros a = merge_zeros b.
Proof.
  intros a b. unfold SpecFloat.SFeqb.
  destruct a as [s1|s1| |s1 m1 e1], b as [s2|s2| |s2 m2 e2];
    try (destruct s1); try (destruct s2); simpl;
    try (split; [discriminate | intros [Hn He]; (discriminate He || congruence)]);
    try (split; [intros _; split; [discriminate|reflexivity] | reflexivity]).
  all: change (Pos.compare_cont Eq m1 m2) with (Pos.compare m1 m2).
  all: destruct (Z.compare_spec e1 e2) as [He|He|He];
    try (split; [discriminate | intros [_ H]; inversion H; lia]).
  all: destruct (Pos.compare_spec m1 m2) as [Hm|Hm|Hm]; simpl;
    try (split; [discriminate | intros [_ H]; inversion H; lia]).
  all: subst; split; [intros _; split; [discriminate|reflexivity] | reflexivity].
Qed.

Lemma SFeqb_self :
  forall a, SpecFloat.SFeqb a a = false <-> a = SpecFloat.S754_nan.
Proof.
  intros a. split.
  - intros H. destruct (SFeqb_merge_zeros a a) as [_ Hb].
    destruct a; try reflexivity;
      rewrite Hb in H by (split; [discriminate|reflexivity]); discriminate.
  - intros ->. reflexivity.
Qed.

Lemma same_value_zero_spec :
  forall x y,
    NumberSet.same_value_zero x y = true <->
    merge_zeros (Prim2SF x) = merge_zeros (Prim2SF y).
Proof.
  intros x y. unfold NumberSet.same_value_zero, PrimFloat.is_nan.
  rewrite !FloatAxioms.eqb_spec.
  rewrite orb_true_iff, andb_true_iff, !negb_true_iff.
  rewrite SFeqb_merge_zeros.
  rewrite !SFeqb_self. split.
  - intros [[_ H]|[-> ->]]; [exact H|reflexivity].
  - intros H. destruct (Prim2SF x) as [s| s | |s m e] eqn:Ex.
    + left. split; [discriminate|exact H].
    + left. split; [discriminate|exact H].
    + right. split; [reflexivity|].
      destruct (Prim2SF y); simpl in H; congruence.
    + left. split; [discriminate|exact H].
Qed.

Lemma same_value_zero_refl :
  forall x, NumberSet.same_value_zero x x = true.
Proof.
  intros x. now apply same_value_zero_spec.
Qed.

Lemma same_value_zero_sym :
  forall x y, NumberSet.same_value_zero x y = NumberSet.same_value_zero y x.
Proof.
  intros x y. apply eq_true_iff_eq. rewrite !same_value_zero_spec. split; congruence.
Qed.

Lemma same_value_zero_trans :
  forall x y z,
    NumberSet.same_value_zero x y = true -> NumberSet.same_value_zero y z = true ->
    NumberSet.same_value_zero x z = true.
Proof.
  intros x y z. rewrite !same_value_zero_spec. congruence.
Qed.

Lemma same_value_zero_compat :
  forall x y z,
    NumberSet.same_value_zero x y = true ->
    NumberSet.same_value_zero z x = NumberSet.same_value_zero z y.
Proof.
  intros x y z Hxy. apply eq_true_iff_eq. split; intros H.
  - exact (same_value_zero_trans _ _ _ H Hxy).
  - rewrite same_value_zero_sym in Hxy. exact (same_value_zero_trans _ _ _ H Hxy).
Qed.

Lemma NumberSet_has_compat :
  forall x y s,
    NumberSet.same_value_zero x y = true -> NumberSet.has x s = NumberSet.has y s.
Proof.
  intros x y s Hxy. unfold NumberSet.has.
  induction s as [|z s IH]; simpl; [reflexivity|].
  now rewrite IH, (same_value_zero_compat x y z Hxy).
Qed.

Lemma NumberSet_has_add :
  forall x y s,
    NumberSet.has x (NumberSet.add y s)
    = NumberSet.same_value_zero y x || NumberSet.has x s.
Proof.
  intros x y s. unfold NumberSet.add. destruct (NumberSet.has y s) eqn:Hy.
  - destruct (NumberSet.same_value_zero y x) eqn:Hyx; [|reflexivity].
    now rewrite <- (NumberSet_has_compat y x s Hyx), Hy.
  - unfold NumberSet.has. rewrite existsb_app. simpl.
    rewrite orb_false_r. apply orb_comm.
Qed.

Lemma same_value_zero_compat_l :
  forall x y z,
    NumberSet.same_value_zero x y = true ->
    NumberSet.same_value_zero x z = NumberSet.same_value_zero y z.
Proof.
  intros x y z Hxy.
  rewrite (same_value_zero_sym x z), (same_value_zero_sym y z).
  now apply same_value_zero_compat.
Qed.

Lemma NumberSet_has_delete :
  forall x y s,
    NumberSet.has x (NumberSet.delete y s)
    = negb (NumberSet.same_value_zero y x) && NumberSet.has x s.
Proof.
  intros x y s. unfold NumberSet.has, NumberSet.delete.
  induction s as [|z s IH]; simpl; [now rewrite andb_false_r|].
  destruct (NumberSet.same_value_zero z y) eqn:Hzy; simpl.
  - rewrite IH, (same_value_zero_compat_l z y x Hzy).
    now destruct (NumberSet.same_value_zero y x).
  - rewrite IH. destruct (NumberSet.same_value_zero y x) eqn:Hyx; simpl; [|reflexivity].
    rewrite orb_false_r.
    destruct (NumberSet.same_value_zero z x) eqn:Hzx; [|reflexivity].
    rewrite same_value_zero_sym in Hyx.
    now rewrite (same_value_zero_trans z x y Hzx Hyx) in Hzy.
Qed.

Lemma NumberSet_has_toggle :
  forall x y s,
    NumberSet.has x (if NumberSet.has y s then NumberSet.delete y s
                     else NumberSet.add y s)
    = xorb (NumberSet.same_value_zero y x) (NumberSet.has x s).
Proof.
  intros x y s. destruct (NumberSet.has y s) eqn:Hy.
  - rewrite NumberSet_has_delete.
    destruct (NumberSet.same_value_zero y x) eqn:Hyx; simpl.
    + now rewrite <- (NumberSet_has_compat y x s Hyx), Hy.
    + reflexivity.
  - rewrite NumberSet_has_add.
    destruct (NumberSet.same_value_zero y x) eqn:Hyx; simpl; [|reflexivity].
    now rewrite <- (NumberSet_has_compat y x s Hyx), Hy.
Qed.

(* ================================================================== *)
(** ** The export dialog: exclusions and the export list *)
(* ================================================================== *)

Lemma xorb_twice :
  forall a b, xorb a (xorb a b) = b.
Proof.
  now intros [] [].
Qed.

Lemma filter_twice {A : Type} (f g : A -> bool) :
  forall l, filter f (filter g l) = filter (fun a => g a && f a) l.
Proof.
  induction l as [|a l IH]; simpl; [reflexivity|].
  destruct (g a); simpl; [|exact IH]. destruct (f a); now rewrite IH.
Qed.

Lemma is_exported_spec :
  forall categories st acc,
    ExportModal.is_exported categories st acc
    = negb (ExportModal.isAccountExcluded st (ExportModal.id acc))
      && negb (ExportModal.isCategoryExcluded categories st (ExportModal.category acc)).
Proof.
  intros categories st acc.
  unfold ExportModal.is_exported, ExportModal.isAccountExcluded,
    ExportModal.isCategoryExcluded.
  destruct (StringSet.has _ _); simpl; [reflexivity|].
  destruct (ExportModal.getCategoryId categories _) as [catId|]; [|reflexivity].
  now destruct (NumberSet.has catId _).
Qed.

Lemma isAccountExcluded_toggleAccount :
  forall st accountId other,
    ExportModal.isAccountExcluded (ExportModal.toggleAccount accountId st) other
    = xorb (String.eqb accountId other) (ExportModal.isAccountExcluded st other).
Proof.
  intros st accountId other.
  unfold ExportModal.isAccountExcluded, ExportModal.toggleAccount. simpl.
  apply StringSet_has_toggle.
Qed.

Lemma isCategoryExcluded_toggleCategory :
  forall categories st categoryName catId other,
    ExportModal.getCategoryId categories categoryName = Some catId ->
    ExportModal.isCategoryExcluded categories
      (ExportModal.toggleCategory categories categoryName st) other
    = match ExportModal.getCategoryId categories other with
      | Some otherId =>
          xorb (NumberSet.same_value_zero catId otherId)
               (NumberSet.has otherId (ExportModal.excludedCategoryIds st))
      | None => false
      end.
Proof.
  intros categories st categoryName catId other Hid.
  unfold ExportModal.isCategoryExcluded, ExportModal.toggleCategory. rewrite Hid.
  destruct (ExportModal.getCategoryId categories other) as [otherId|]; [|reflexivity].
  simpl. apply NumberSet_has_toggle.
Qed.

Lemma isAccountExcluded_toggleCategory :
  forall categories st categoryName accountId,
    ExportModal.isAccountExcluded
      (ExportModal.toggleCategory categories categoryName st) accountId
    = ExportModal.isAccountExcluded st accountId.
Proof.
  intros categories st categoryName accountId. unfold ExportModal.toggleCategory.
  now destruct (ExportModal.getCategoryId categories categoryName).
Qed.

Lemma isCategoryExcluded_toggleCategory_twice :
  forall categories st categoryName other,
    ExportModal.isCategoryExcluded categories
      (ExportModal.toggleCategory categories categoryName
         (ExportModal.toggleCategory categories categoryName st)) other
    = ExportModal.isCategoryExcluded categories st other.
Proof.
  intros categories st categoryName other.
  destruct (ExportModal.getCategoryId categories categoryName) as [catId|] eqn:Hid.
  - rewrite (isCategoryExcluded_toggleCategory _ _ _ _ _ Hid).
    pose proof (isCategoryExcluded_toggleCategory categories st categoryName catId
                  other Hid) as Hinner.
    unfold ExportModal.isCategoryExcluded in *.
    destruct (ExportModal.getCategoryId categories other) as [otherId|];
      [|reflexivity].
    rewrite Hinner. apply xorb_twice.
  - unfold ExportModal.toggleCategory. now rewrite Hid.
Qed.

(** X8. Toggling an account flips the exclusion of that account id and of no
    other; toggling it twice leaves every account as it was, and category
    exclusions are not touched. *)
Theorem toggleAccount_flips_one_account :
  forall categories st accountId,
    ExportModal.isAccountExcluded (ExportModal.toggleAccount accountId st) accountId
    = negb (ExportModal.isAccountExcluded st accountId)
    /\ (forall other,
          other <> accountId ->
          ExportModal.isAccountExcluded (ExportModal.toggleAccount accountId st) other
          = ExportModal.isAccountExcluded st other)
    /\ (forall other,
          ExportModal.isAccountExcluded
            (ExportModal.toggleAccount accountId
               (ExportModal.toggleAccount accountId st)) other
          = ExportModal.isAccountExcluded st other)
    /\ (forall name,
          ExportModal.isCategoryExcluded categories
            (ExportModal.toggleAccount accountId st) name
          = ExportModal.isCategoryExcluded categories st name).
Proof.
  intros categories st accountId. repeat apply conj.
  - rewrite isAccountExcluded_toggleAccount, String.eqb_refl.
    now destruct (ExportModal.isAccountExcluded st accountId).
  - intros other Hne. rewrite isAccountExcluded_toggleAccount.
    destruct (String.eqb_spec accountId other) as [->|_]; [congruence|reflexivity].
  - intros other. rewrite !isAccountExcluded_toggleAccount. apply xorb_twice.
  - reflexivity.
Qed.

(** X9. Toggling a category whose name resolves to no id changes nothing.
    Otherwise it flips the exclusion of that category, and of exactly the
    categories that resolve to the same id; account exclusions are not
    touched. *)
Theorem toggleCategory_flips_one_id :
  forall categories st categoryName,
    (ExportModal.getCategoryId categories categoryName = None ->
     ExportModal.toggleCategory categories categoryName st = st)
    /\ (forall catId,
          ExportModal.getCategoryId categories categoryName = Some catId ->
          ExportModal.isCategoryExcluded categories
            (ExportModal.toggleCategory categories categoryName st) categoryName
          = negb (ExportModal.isCategoryExcluded categories st categoryName)
          /\ (forall other otherId,
                ExportModal.getCategoryId categories other = Some otherId ->
                ExportModal.isCategoryExcluded categories
                  (ExportModal.toggleCategory categories categoryName st) other
                = xorb (NumberSet.same_value_zero catId otherId)
                       (ExportModal.isCategoryExcluded categories st other)))
    /\ (forall accountId,
          ExportModal.isAccountExcluded
            (ExportModal.toggleCategory categories categoryName st) accountId
          = ExportModal.isAccountExcluded st accountId).
Proof.
  intros categories st categoryName. repeat apply conj.
  - intros Hnone. unfold ExportModal.toggleCategory. now rewrite Hnone.
  - intros catId Hid. split.
    + rewrite (isCategoryExcluded_toggleCategory _ _ _ _ _ Hid).
      unfold ExportModal.isCategoryExcluded. rewrite Hid, same_value_zero_refl.
      now destruct (NumberSet.has catId _).
    + intros other otherId Hother.
      rewrite (isCategoryExcluded_toggleCategory _ _ _ _ _ Hid).
      unfold ExportModal.isCategoryExcluded. now rewrite Hother.
  - intros accountId. apply isAccountExcluded_toggleCategory.
Qed.

(** X10. The export list keeps the accounts in their order and holds exactly
    those that are excluded neither by id nor by category, so it is never
    longer than the account list; without exclusions, and after the dialog
    was closed, it is the whole account list. *)
Theorem filteredAccounts_spec :
  forall accounts categories st,
    Subsequence (ExportModal.filteredAccounts accounts categories st) accounts
    /\ (forall acc,
          In acc (ExportModal.filteredAccounts accounts categories st) <->
          In acc accounts /\
          ExportModal.isAccountExcluded st (ExportModal.id acc) = false /\
          ExportModal.isCategoryExcluded categories st (ExportModal.category acc) = false)
    /\ (ExportModal.exportCount accounts categories st
        <= ExportModal.totalCount accounts)%nat
    /\ (ExportModal.excludedCategoryIds st = NumberSet.empty ->
        ExportModal.excludedAccountIds st = StringSet.empty ->
        ExportModal.filteredAccounts accounts categories st = accounts)
    /\ ExportModal.filteredAccounts accounts categories
         (ExportModal.on_isModalOpen false st) = accounts
    /\ ExportModal.on_isModalOpen true st = st.
Proof.
  intros accounts categories st.
  assert (Hall : forall st',
            ExportModal.excludedCategoryIds st' = NumberSet.empty ->
            ExportModal.excludedAccountIds st' = StringSet.empty ->
            ExportModal.filteredAccounts accounts categories st' = accounts).
  { intros st' Hc Ha. unfold ExportModal.filteredAccounts.
    rewrite (filter_ext (ExportModal.is_exported categories st') (fun _ => true)).
    - induction accounts as [|a l IH]; simpl; [reflexivity|]. now rewrite IH.
    - intros acc. unfold ExportModal.is_exported. rewrite Hc, Ha. simpl.
      now destruct (ExportModal.getCategoryId categories _). }
  repeat apply conj.
  - apply filter_Subsequence.
  - intros acc. unfold ExportModal.filteredAccounts.
    rewrite filter_In, is_exported_spec, andb_true_iff, !negb_true_iff. tauto.
  - apply filter_length_le.
  - apply Hall.
  - now apply Hall.
  - reflexivity.
Qed.

(** X11. Excluding an account that was included removes from the export list
    exactly the accounts with that id. Toggling the same account twice, or
    the same category twice, gives back the export list there was. *)
Theorem toggles_and_export_list :
  forall accounts categories st accountId categoryName,
    (ExportModal.isAccountExcluded st accountId = false ->
     ExportModal.filteredAccounts accounts categories
       (ExportModal.toggleAccount accountId st)
     = filter (fun acc => negb (String.eqb (ExportModal.id acc) accountId))
         (ExportModal.filteredAccounts accounts categories st))
    /\ ExportModal.filteredAccounts accounts categories
         (ExportModal.toggleAccount accountId (ExportModal.toggleAccount accountId st))
       = ExportModal.filteredAccounts accounts categories st
    /\ ExportModal.filteredAccounts accounts categories
         (ExportModal.toggleCategory categories categoryName
            (ExportModal.toggleCategory categories categoryName st))
       = ExportModal.filteredAccounts accounts categories st.
Proof.
  intros accounts categories st accountId categoryName. repeat apply conj.
  - intros Hin. unfold ExportModal.filteredAccounts.
    rewrite filter_twice. apply filter_ext. intros acc.
    rewrite !is_exported_spec, isAccountExcluded_toggleAccount.
    change (ExportModal.isCategoryExcluded categories
              (ExportModal.toggleAccount accountId st) (ExportModal.category acc))
      with (ExportModal.isCategoryExcluded categories st (ExportModal.category acc)).
    rewrite (String.eqb_sym accountId).
    destruct (String.eqb_spec (ExportModal.id acc) accountId) as [->|_]; simpl.
    + rewrite Hin. simpl. now rewrite andb_false_r.
    + now rewrite andb_true_r.
  - unfold ExportModal.filteredAccounts. apply filter_ext. intros acc.
    rewrite !is_exported_spec, !isAccountExcluded_toggleAccount, xorb_twice.
    reflexivity.
  - unfold ExportModal.filteredAccounts. apply filter_ext. intros acc.
    rewrite !is_exported_spec, isCategoryExcluded_toggleCategory_twice.
    now rewrite !isAccountExcluded_toggleCategory.
Qed.

(** An account that was included, on a list of three. *)
Lemma toggles_and_export_list_witness :
  ExportModal.filteredAccounts
    [ {| ExportModal.id := "1"; ExportModal.name := "Checking";
         ExportModal.bank := "First"; ExportModal.category := "Cash";
         ExportModal.owner := "me"; ExportModal.latestBalance := 100%float |};
      {| ExportModal.id := "2"; ExportModal.name := "Broker";
         ExportModal.bank := "Second"; ExportModal.category := "Stocks";
         ExportModal.owner := "joint"; ExportModal.latestBalance := 900%float |} ]
    [ {| ExportModal.cat_id := Some 1%float; ExportModal.cat_name := "Cash" |} ]
    (ExportModal.toggleAccount "2"
       {| ExportModal.isModalOpen := true; ExportModal.showExcludeOptions := true;
          ExportModal.excludedCategoryIds := NumberSet.empty;
          ExportModal.excludedAccountIds := StringSet.empty |})
  = [ {| ExportModal.id := "1"; ExportModal.name := "Checking";
         ExportModal.bank := "First"; ExportModal.category := "Cash";
         ExportModal.owner := "me"; ExportModal.latestBalance := 100%float |} ].
Proof.
  exact (proj1 (toggles_and_export_list
                  [ {| ExportModal.id := "1"; ExportModal.name := "Checking";
                       ExportModal.bank := "First"; ExportModal.category := "Cash";
                       ExportModal.owner := "me";
                       ExportModal.latestBalance := 100%float |};
                    {| ExportModal.id := "2"; ExportModal.name := "Broker";
                       ExportModal.bank := "Second"; ExportModal.category := "Stocks";
                       ExportModal.owner := "joint";
                       ExportModal.latestBalance := 900%float |} ]
                  [ {| ExportModal.cat_id := Some 1%float;
                       ExportModal.cat_name := "Cash" |} ]
                  {| ExportModal.isModalOpen := true;
                     ExportModal.showExcludeOptions := true;
                     ExportModal.excludedCategoryIds := NumberSet.empty;
                     ExportModal.excludedAccountIds := StringSet.empty |}
                  "2" "Cash") eq_refl).
Defined.

(* ================================================================== *)
(** ** The export dialog: grouping by category *)
(* ================================================================== *)

Lemma own_app :
  forall key g g',
    ExportModal.own key (g ++ g')%list
    = match ExportModal.own key g with
      | Some v => Some v
      | None => ExportModal.own key g'
      end.
Proof.
  intros key g g'. induction g as [|[k v] g IH]; simpl; [reflexivity|].
  now destruct (String.eqb k key).
Qed.

Lemma own_push_own :
  forall key acc c g,
    ExportModal.own c (ExportModal.push_own key acc g)
    = match ExportModal.own c g with
      | Some v => if String.eqb c key then Some (v ++ [acc])%list else Some v
      | None => None
      end.
Proof.
  intros key acc c g. induction g as [|[k v] g IH]; simpl; [reflexivity|].
  destruct (String.eqb_spec k key) as [Hk|Hk]; simpl;
    destruct (String.eqb_spec k c) as [Hc|Hc]; simpl.
  - subst. now rewrite String.eqb_refl.
  - subst k. destruct (ExportModal.own c g) as [w|]; [|reflexivity].
    destruct (String.eqb_spec c key) as [E|_]; [congruence|reflexivity].
  - subst k. destruct (String.eqb_spec c key) as [E|_]; [congruence|reflexivity].
  - exact IH.
Qed.

(** What one turn of the loop does to the property [c]. *)
Lemma group_step_own :
  forall g acc g',
    ExportModal.group_step g acc = Some g' ->
    forall c,
      ExportModal.own c g'
      = if String.eqb c (ExportModal.category acc)
        then Some (match ExportModal.own c g with
                   | Some v => v
                   | None => []
                   end ++ [acc])%list
        else ExportModal.own c g.
Proof.
  intros g acc g' Hstep c. unfold ExportModal.group_step in Hstep.
  destruct (ExportModal.own (ExportModal.category acc) g) as [v|] eqn:Hown.
  - inversion Hstep; subst g'. rewrite own_push_own.
    destruct (String.eqb_spec c (ExportModal.category acc)) as [->|_].
    + now rewrite Hown.
    + now destruct (ExportModal.own c g).
  - destruct (existsb _ ExportModal.object_prototype_keys); [discriminate|].
    inversion Hstep; subst g'. rewrite own_push_own, own_app. simpl.
    destruct (String.eqb_spec c (ExportModal.category acc)) as [->|Hc].
    + now rewrite Hown, String.eqb_refl.
    + destruct (ExportModal.own c g); [reflexivity|].
      destruct (String.eqb_spec (ExportModal.category acc) c); [congruence|reflexivity].
Qed.

Lemma group_step_fails :
  forall g acc,
    ExportModal.group_step g acc = None <->
    ExportModal.own (ExportModal.category acc) g = None /\
    In (ExportModal.category acc) ExportModal.object_prototype_keys.
Proof.
  intros g acc. unfold ExportModal.group_step.
  destruct (ExportModal.own (ExportModal.category acc) g) as [v|].
  - split; [discriminate|]. intros [H _]. discriminate.
  - destruct (existsb _ ExportModal.object_prototype_keys) eqn:Hp.
    + split; [|reflexivity]. intros _. split; [reflexivity|].
      apply existsb_exists in Hp. destruct Hp as (k & Hin & Hk).
      apply String.eqb_eq in Hk. now subst k.
    + split; [discriminate|]. intros [_ Hin]. exfalso.
      assert (Ht : existsb (String.eqb (ExportModal.category acc))
                     ExportModal.object_prototype_keys = true).
      { apply existsb_exists. exists (ExportModal.category acc).
        split; [exact Hin|apply String.eqb_refl]. }
      congruence.
Qed.

Lemma group_loop_own :
  forall accounts g g',
    ExportModal.group_loop g accounts = Some g' ->
    forall c,
      ExportModal.own c g'
      = match ExportModal.own c g,
              filter (fun a => String.eqb (ExportModal.category a) c) accounts with
        | Some v, l => Some (v ++ l)%list
        | None, [] => None
        | None, l => Some l
        end.
Proof.
  induction accounts as [|acc rest IH]; intros g g' Hloop c; simpl in *.
  - inversion Hloop; subst g'.
    destruct (ExportModal.own c g); [now rewrite app_nil_r|reflexivity].
  - destruct (ExportModal.group_step g acc) as [g1|] eqn:Hstep; [|discriminate].
    rewrite (IH g1 g' Hloop c), (group_step_own g acc g1 Hstep c).
    rewrite (String.eqb_sym c).
    destruct (String.eqb (ExportModal.category acc) c).
    + destruct (ExportModal.own c g) as [v|]; simpl; [now rewrite <- app_assoc|].
      reflexivity.
    + now destruct (ExportModal.own c g).
Qed.

Lemma group_loop_fails :
  forall accounts g,
    ExportModal.group_loop g accounts = None <->
    exists acc,
      In acc accounts /\
      ExportModal.own (ExportModal.category acc) g = None /\
      In (ExportModal.category acc) ExportModal.object_prototype_keys.
Proof.
  induction accounts as [|a rest IH]; intros g; simpl.
  - split; [discriminate|]. intros (acc & [] & _).
  - destruct (ExportModal.group_step g a) as [g1|] eqn:Hstep.
    + rewrite IH. split.
      * intros (acc & Hin & Hown & Hp). exists acc. repeat split; auto.
        rewrite (group_step_own g a g1 Hstep) in Hown.
        destruct (String.eqb _ _); [discriminate|exact Hown].
      * intros (acc & [<-|Hin] & Hown & Hp).
        -- assert (Hf : ExportModal.group_step g a = None)
             by (apply group_step_fails; auto).
           congruence.
        -- exists acc. repeat split; auto.
           rewrite (group_step_own g a g1 Hstep).
           destruct (String.eqb_spec (ExportModal.category acc)
                       (ExportModal.category a)) as [E|_]; [|exact Hown].
           assert (Hf : ExportModal.group_step g a = None).
           { apply group_step_fails. rewrite <- E. auto. }
           congruence.
    + split; [|reflexivity]. intros _. apply group_step_fails in Hstep.
      exists a. split; [now left|exact Hstep].
Qed.

(** X12. Grouping fails, with a [TypeError], exactly when some account's
    category is the name of a property inherited from [Object.prototype].
    Otherwise every category that occurs has one group, holding the accounts
    of that category in their order, and no other category has a group. *)
Theorem accountsByCategory_groups :
  forall accounts,
    (ExportModal.accountsByCategory accounts = None <->
     exists acc, In acc accounts /\
                 In (ExportModal.category acc) ExportModal.object_prototype_keys)
    /\ (forall grouped,
          ExportModal.accountsByCategory accounts = Some grouped ->
          forall c,
            ExportModal.own c grouped
            = match filter (fun a => String.eqb (ExportModal.category a) c) accounts with
              | [] => None
              | l => Some l
              end).
Proof.
  intros accounts. unfold ExportModal.accountsByCategory. split.
  - rewrite group_loop_fails. split.
    + intros (acc & Hin & _ & Hp). eauto.
    + intros (acc & Hin & Hp). exists acc. auto.
  - intros grouped Hloop c. now rewrite (group_loop_own accounts [] grouped Hloop c).
Qed.

(* ================================================================== *)
(** ** The export dialog: CSV fields *)
(* ================================================================== *)

Lemma double_quotes_inj :
  forall a b, ExportModal.double_quotes a = ExportModal.double_quotes b -> a = b.
Proof.
  induction a as [|x a IH]; intros [|y b] H; simpl in H.
  - reflexivity.
  - destruct (Ascii.eqb y ExportModal.dquote); discriminate.
  - destruct (Ascii.eqb x ExportModal.dquote); discriminate.
  - destruct (Ascii.eqb_spec x ExportModal.dquote) as [->|Hx],
             (Ascii.eqb_spec y ExportModal.dquote) as [->|Hy].
    + inversion H as [H']. now rewrite (IH b H').
    + inversion H. congruence.
    + inversion H. congruence.
    + inversion H as [[Hxy H']]. now rewrite (IH b H').
Qed.

Lemma append_last_inj :
  forall (a b : string) c,
    (a ++ String c EmptyString)%string = (b ++ String c EmptyString)%string -> a = b.
Proof.
  induction a as [|x a IH]; intros [|y b] c H; simpl in H.
  - reflexivity.
  - inversion H as [[Hc Hb]]. now destruct b.
  - inversion H as [[Hc Ha]]. now destruct a.
  - inversion H as [[Hxy H']]. now rewrite (IH b c H').
Qed.

Lemma double_quotes_length :
  forall f, (String.length f <= String.length (ExportModal.double_quotes f))%nat.
Proof.
  induction f as [|x f IH]; simpl; [lia|].
  destruct (Ascii.eqb x ExportModal.dquote); simpl; lia.
Qed.

Lemma includes_head :
  forall c rest, ExportModal.includes c (String c rest) = true.
Proof.
  intros c rest. simpl. now rewrite Ascii.eqb_refl.
Qed.

(** X13. [escapeCsvField] loses nothing: two different fields have different
    escaped forms. A field is returned as it is exactly when it holds no
    comma, no double quote and no line feed; any other field comes back
    between double quotes. *)
Theorem escapeCsvField_injective :
  (forall a b, ExportModal.escapeCsvField a = ExportModal.escapeCsvField b -> a = b)
  /\ (forall f,
        ExportModal.escapeCsvField f = f <->
        ExportModal.includes ExportModal.comma f = false /\
        ExportModal.includes ExportModal.dquote f = false /\
        ExportModal.includes ExportModal.newline f = false)
  /\ (forall f,
        ExportModal.escapeCsvField f <> f ->
        exists body,
          ExportModal.escapeCsvField f
          = String ExportModal.dquote (body ++ String ExportModal.dquote EmptyString)
          /\ body = ExportModal.double_quotes f).
Proof.
  assert (Hplain : forall f,
            ExportModal.includes ExportModal.comma f
            || ExportModal.includes ExportModal.dquote f
            || ExportModal.includes ExportModal.newline f = false <->
            ExportModal.includes ExportModal.comma f = false /\
            ExportModal.includes ExportModal.dquote f = false /\
            ExportModal.includes ExportModal.newline f = false).
  { intros f. rewrite !orb_false_iff. tauto. }
  repeat apply conj.
  - intros a b. unfold ExportModal.escapeCsvField.
    destruct (ExportModal.includes ExportModal.comma a
              || ExportModal.includes ExportModal.dquote a
              || ExportModal.includes ExportModal.newline a) eqn:Ha;
    destruct (ExportModal.includes ExportModal.comma b
              || ExportModal.includes ExportModal.dquote b
              || ExportModal.includes ExportModal.newline b) eqn:Hb; intros H.
    + inversion H as [H']. apply append_last_inj in H'. now apply double_quotes_inj.
    + exfalso. apply Hplain in Hb. destruct Hb as (_ & Hq & _).
      subst b. now rewrite includes_head in Hq.
    + exfalso. apply Hplain in Ha. destruct Ha as (_ & Hq & _).
      subst a. now rewrite includes_head in Hq.
    + exact H.
  - intros f. rewrite <- Hplain. unfold ExportModal.escapeCsvField.
    destruct (ExportModal.includes ExportModal.comma f
              || ExportModal.includes ExportModal.dquote f
              || ExportModal.includes ExportModal.newline f).
    + split; [|discriminate]. intros H. exfalso.
      apply (f_equal String.length) in H. simpl in H.
      rewrite string_length_append in H. simpl in H.
      pose proof (double_quotes_length f). lia.
    + split; reflexivity.
  - intros f Hne. unfold ExportModal.escapeCsvField in *.
    destruct (ExportModal.includes ExportModal.comma f
              || ExportModal.includes ExportModal.dquote f
              || ExportModal.includes ExportModal.newline f).
    + eexists. split; reflexivity.
    + congruence.
Qed.

(* ================================================================== *)
(** ** The tick labels of the chart *)
(* ================================================================== *)

Lemma uniqueMonthIndices_char :
  forall chartData i,
    In i (uniqueMonthIndices chartData) <->
    exists d, nth_error chartData i = Some d /\
              forall j d', (j < i)%nat -> nth_error chartData j = Some d' ->
                           Chart.formattedDate d' <> Chart.formattedDate d.
Proof.
  intros chartData i. unfold uniqueMonthIndices.
  rewrite forEach_unseen_first_positions. simpl. rewrite first_positions_spec.
  split.
  - intros (n & d & -> & Hn & _ & Hfirst). exists d. auto.
  - intros (d & Hd & Hfirst). exists i, d. repeat split; auto.
Qed.

(** Every label of the series has a first position. *)
Lemma first_occurrence_exists :
  forall chartData k d,
    nth_error chartData k = Some d ->
    exists i di,
      (i <= k)%nat /\ nth_error chartData i = Some di /\
      Chart.formattedDate di = Chart.formattedDate d /\
      forall j d', (j < i)%nat -> nth_error chartData j = Some d' ->
                   Chart.formattedDate d' <> Chart.formattedDate di.
Proof.
  intros chartData k. induction k as [k IHk] using lt_wf_ind. intros d Hd.
  destruct (bounded_search
              (fun j => option_map Chart.formattedDate (nth_error chartData j)
                        = Some (Chart.formattedDate d))
              (fun j => option_string_dec _ _) k) as [Hno|(j & Hj & Hsame)].
  - exists k, d. repeat split; [lia|exact Hd|].
    intros j d' Hj Hd' E. apply (Hno j Hj). rewrite Hd'. simpl. now rewrite E.
  - destruct (nth_error chartData j) as [dj|] eqn:Hdj; [|discriminate].
    simpl in Hsame. inversion Hsame as [E].
    destruct (IHk j Hj dj Hdj) as (i & di & Hle & Hi & Ei & Hfirst).
    exists i, di. repeat split; [lia|exact Hi|congruence|exact Hfirst].
Qed.

Lemma StronglySorted_lt_NoDup :
  forall l : list nat, StronglySorted lt l -> NoDup l.
Proof.
  induction l as [|a l IH]; intros Hs; [constructor|].
  apply StronglySorted_inv in Hs. destruct Hs as [Hs Hall].
  constructor; [|now apply IH].
  intros Hin. rewrite Forall_forall in Hall. specialize (Hall a Hin). lia.
Qed.

Lemma NoDup_map_injective_on {A B : Type} (f : A -> B) :
  forall l,
    (forall x y, In x l -> In y l -> f x = f y -> x = y) ->
    NoDup l -> NoDup (map f l).
Proof.
  induction l as [|a l IH]; intros Hinj Hnd; simpl; [constructor|].
  inversion Hnd as [|? ? Hnotin Hnd']; subst. constructor.
  - intros Hin. apply in_map_iff in Hin. destruct Hin as (x & Hfx & Hx).
    assert (x = a) by (apply Hinj; simpl; auto). now subst x.
  - apply IH; [|exact Hnd']. intros x y Hx Hy. apply Hinj; simpl; auto.
Qed.

(** X7. The tick positions of the chart are exactly the positions at which a
    month label occurs for the first time in the series, listed in ascending
    order; each of them is a position of the series. *)
Theorem uniqueMonthIndices_first_occurrences :
  forall chartData,
    let indices := uniqueMonthIndices chartData in
    StronglySorted lt indices
    /\ (forall i,
          In i indices <->
          exists d, nth_error chartData i = Some d /\
                    forall j d', (j < i)%nat -> nth_error chartData j = Some d' ->
                                 Chart.formattedDate d' <> Chart.formattedDate d)
    /\ (forall i, In i indices -> (i < List.length chartData)%nat)
    /\ (chartData <> [] -> hd_error indices = Some 0%nat).
Proof.
  intros chartData indices. subst indices. repeat apply conj.
  - unfold uniqueMonthIndices. rewrite forEach_unseen_first_positions. simpl.
    apply first_positions_sorted.
  - apply uniqueMonthIndices_char.
  - intros i Hi. apply uniqueMonthIndices_char in Hi. destruct Hi as (d & Hd & _).
    apply nth_error_Some. congruence.
  - intros Hne. destruct chartData as [|d rest]; [congruence|].
    unfold uniqueMonthIndices. rewrite forEach_unseen_first_positions. reflexivity.
Qed.

(** X14. The labels printed along the axis, [xTickFormat] over [xTickValues],
    are the month labels of the series, each one once: every label of a point
    is printed, nothing else is, and no label is printed twice. *)
Theorem tick_labels_show_each_month_once :
  forall chartData,
    let labels := map (xTickFormat chartData) (xTickValues chartData) in
    NoDup labels
    /\ (forall l, In l labels <->
                  exists d, In d chartData /\ Chart.formattedDate d = l).
Proof.
  intros chartData labels. subst labels. unfold xTickValues. split.
  - apply NoDup_map_injective_on.
    + intros i j Hi Hj E.
      apply uniqueMonthIndices_char in Hi, Hj.
      destruct Hi as (di & Hdi & Hfi), Hj as (dj & Hdj & Hfj).
      unfold xTickFormat in E. rewrite Hdi, Hdj in E.
      destruct (Nat.lt_trichotomy i j) as [Hlt|[->|Hgt]]; [|reflexivity|].
      * exfalso. exact (Hfj i di Hlt Hdi E).
      * exfalso. apply (Hfi j dj Hgt Hdj). now symmetry.
    + apply StronglySorted_lt_NoDup.
      unfold uniqueMonthIndices. rewrite forEach_unseen_first_positions. simpl.
      apply first_positions_sorted.
  - intros l. rewrite in_map_iff. split.
    + intros (i & Hl & Hi). apply uniqueMonthIndices_char in Hi.
      destruct Hi as (d & Hd & _). exists d. split.
      * eapply nth_error_In; eauto.
      * unfold xTickFormat in Hl. now rewrite Hd in Hl.
    + intros (d & Hin & Hl). apply In_nth_error in Hin. destruct Hin as (k & Hk).
      destruct (first_occurrence_exists chartData k d Hk)
        as (i & di & _ & Hi & Ei & Hfirst).
      exists i. split.
      * unfold xTickFormat. rewrite Hi. congruence.
      * apply uniqueMonthIndices_char. exists di. auto.
Qed.

(* ================================================================== *)
(** ** Export file names *)
(* ================================================================== *)

Lemma digit_char_not_T :
  forall n, Ascii.eqb (JSDate.digit_char n) "T" = false.
Proof.
  intros n. unfold JSDate.digit_char.
  assert (H : 0 <= n mod 10 < 10) by (apply Z.mod_pos_bound; lia).
  assert (E : n mod 10 = 0 \/ n mod 10 = 1 \/ n mod 10 = 2 \/ n mod 10 = 3
              \/ n mod 10 = 4 \/ n mod 10 = 5 \/ n mod 10 = 6 \/ n mod 10 = 7
              \/ n mod 10 = 8 \/ n mod 10 = 9) by lia.
  repeat (destruct E as [->|E]; [reflexivity|]). rewrite E. reflexivity.
Qed.

Lemma split_head_append :
  forall c a b,
    ExportModal.includes c a = false ->
    split_head c (a ++ String c b) = a.
Proof.
  intros c a b. induction a as [|x a IH]; simpl; intros H.
  - now rewrite Ascii.eqb_refl.
  - apply orb_false_iff in H. destruct H as [Hx Ha]. rewrite Hx. now rewrite IH.
Qed.

Lemma includes_append :
  forall c a b,
    ExportModal.includes c (a ++ b)
    = ExportModal.includes c a || ExportModal.includes c b.
Proof.
  intros c a b. induction a as [|x a IH]; simpl; [reflexivity|].
  now rewrite IH, orb_assoc.
Qed.

Lemma digits_no_T :
  forall k n, ExportModal.includes "T" (JSDate.digits k n) = false.
Proof.
  induction k as [|k IH]; intros n; simpl; [reflexivity|].
  rewrite includes_append, IH. simpl. now rewrite digit_char_not_T.
Qed.

Lemma iso_day_no_T :
  forall t, ExportModal.includes "T" (JSDate.iso_day t) = false.
Proof.
  intros t. unfold JSDate.iso_day, JSDate.iso_year.
  destruct ((0 <=? JSDate.YearFromTime t) && (JSDate.YearFromTime t <=? 9999));
    [|destruct (JSDate.YearFromTime t <? 0)];
    repeat (rewrite includes_append || rewrite digits_no_T); reflexivity.
Qed.

(** X15. The name of the database export carries the UTC calendar day of the
    clock for every time value, also for years beyond 9999. The name of the
    accounts export carries the same day when the year has four digits; for
    a later year it carries a truncated date. *)
Theorem export_names_carry_utc_day :
  forall now,
    database_export_name now = "networth-export-" ++ JSDate.iso_day now ++ ".json"
    /\ (0 <= JSDate.YearFromTime now <= 9999 ->
        accounts_export_name now = "account-balances-" ++ JSDate.iso_day now ++ ".csv")
    /\ (database_export_name 253402300800000 = "networth-export-+010000-01-01.json"
        /\ accounts_export_name 253402300800000 = "account-balances-+010000-01.csv").
Proof.
  intros now. repeat apply conj; try reflexivity.
  - unfold database_export_name.
    replace (split_head "T" (JSDate.toISOString now)) with (JSDate.iso_day now);
      [reflexivity|].
    symmetry. unfold JSDate.toISOString.
    apply (split_head_append "T"%char). apply iso_day_no_T.
  - intros Hy. unfold accounts_export_name. now rewrite slice_toISOString.
Qed.

(** The clock at 2024-01-01T02:00:00Z. *)
Lemma export_names_carry_utc_day_witness :
  accounts_export_name 1704074400000 = "account-balances-2024-01-01.csv".
Proof.
  exact (proj1 (proj2 (export_names_carry_utc_day 1704074400000))
           ltac:(vm_compute; intuition discriminate)).
Defined.

(* ================================================================== *)
(** ** Navigation items *)
(* ================================================================== *)

(** X16. The navigation always has its two items, and at most one of them is
    active: Dashboard exactly on the path [/], Accounts on every path that
    begins with [/accounts], and neither anywhere else. *)
Theorem useNavItems_one_active :
  forall path,
    map Nav.label (Nav.useNavItems path) = ["Dashboard"; "Accounts"]
    /\ (List.length (filter Nav.active (Nav.useNavItems path)) <= 1)%nat
    /\ (map Nav.active (Nav.useNavItems path) = [true; false] <-> path = "/")
    /\ (forall rest,
          map Nav.active (Nav.useNavItems ("/accounts" ++ rest)) = [false; true]).
Proof.
  intros path. repeat apply conj.
  - reflexivity.
  - unfold Nav.useNavItems, Nav.startsWith. simpl.
    destruct (String.eqb_spec path "/") as [->|_]; simpl; [lia|].
    destruct (String.prefix "/accounts" path); simpl; lia.
  - unfold Nav.useNavItems, Nav.startsWith. simpl.
    intros H. apply String.eqb_eq. congruence.
  - intros ->. reflexivity.
  - intros rest. unfold Nav.useNavItems, Nav.startsWith. simpl.
    assert (Hp : String.prefix "/accounts" ("/accounts" ++ rest) = true).
    { apply String.prefix_correct. apply (substring_append_prefix "/accounts" rest). }
    simpl in Hp. now rewrite Hp.
Qed.

(* ================================================================== *)
(** ** The owner badge *)
(* ================================================================== *)

Lemma trimStart_head :
  forall s c r, JS.trimStart s = String c r -> JS.isStrWhiteSpaceChar c = false.
Proof.
  induction s as [|x s IH]; intros c r H; simpl in H; [discriminate|].
  destruct (JS.isStrWhiteSpaceChar x) eqn:Hx.
  - now apply (IH c r).
  - inversion H; now subst.
Qed.

Lemma trimEnd_cons :
  forall c s,
    JS.isStrWhiteSpaceChar c = false ->
    Badge.trimEnd (String c s) = String c (Badge.trimEnd s).
Proof.
  intros c s Hc. simpl. rewrite Hc. now destruct (Badge.trimEnd s).
Qed.

Lemma trimEnd_idempotent :
  forall s, Badge.trimEnd (Badge.trimEnd s) = Badge.trimEnd s.
Proof.
  induction s as [|c s IH]; simpl; [reflexivity|].
  destruct (Badge.trimEnd s) as [|d r] eqn:E.
  - destruct (JS.isStrWhiteSpaceChar c) eqn:Hc; simpl; [reflexivity|now rewrite Hc].
  - change (Badge.trimEnd (String c (String d r)))
      with (match Badge.trimEnd (String d r) with
            | EmptyString =>
                if JS.isStrWhiteSpaceChar c then EmptyString else String c EmptyString
            | r' => String c r'
            end).
    now rewrite IH.
Qed.

(** A string without white space at its end, taken apart. *)
Lemma trimEnd_fixed_cons :
  forall c s,
    Badge.trimEnd (String c s) = String c s ->
    Badge.trimEnd s = s /\ (s = EmptyString -> JS.isStrWhiteSpaceChar c = false).
Proof.
  intros c s H. simpl in H.
  destruct (Badge.trimEnd s) as [|d r] eqn:E.
  - destruct (JS.isStrWhiteSpaceChar c); [discriminate|].
    inversion H; subst. split; [reflexivity|reflexivity].
  - inversion H; subst. split; [reflexivity|discriminate].
Qed.

Lemma trimEnd_fixed_trimStart :
  forall s, Badge.trimEnd s = s -> s <> EmptyString -> JS.trimStart s <> EmptyString.
Proof.
  induction s as [|c s IH]; intros Hfix Hne; [congruence|].
  apply trimEnd_fixed_cons in Hfix. destruct Hfix as [Hs Hc]. simpl.
  destruct (JS.isStrWhiteSpaceChar c) eqn:E; [|discriminate].
  apply IH; [exact Hs|]. intros ->. specialize (Hc eq_refl). congruence.
Qed.

Lemma split_spaces_in_run :
  forall s, Badge.split_spaces true s = Badge.split_spaces false (JS.trimStart s).
Proof.
  induction s as [|c s IH]; simpl; [reflexivity|].
  destruct (JS.isStrWhiteSpaceChar c) eqn:Hc; [exact IH|].
  simpl. now rewrite Hc.
Qed.

Lemma split_spaces_nonempty :
  forall b s, Badge.split_spaces b s <> [].
Proof.
  intros b s. revert b. induction s as [|c s IH]; intros b; simpl; [discriminate|].
  destruct (JS.isStrWhiteSpaceChar c).
  - destruct b; [apply IH|discriminate].
  - destruct (Badge.split_spaces false s); discriminate.
Qed.

Lemma split_spaces_no_space :
  forall s b,
    Forall (fun w => forall c, ExportModal.includes c w = true ->
                               JS.isStrWhiteSpaceChar c = false)
           (Badge.split_spaces b s).
Proof.
  induction s as [|x s IH]; intros b; simpl.
  - constructor; [|constructor]. intros c H. discriminate.
  - destruct (JS.isStrWhiteSpaceChar x) eqn:Hx.
    + destruct b; [apply IH|]. constructor; [|apply IH]. intros c H. discriminate.
    + specialize (IH false).
      destruct (Badge.split_spaces false s) as [|p ps].
      * constructor; [|constructor]. intros c H. simpl in H.
        rewrite orb_false_r in H. apply Ascii.eqb_eq in H. now subst.
      * inversion IH as [|? ? Hp Hps]; subst. constructor; [|exact Hps].
        intros c H. simpl in H. apply orb_true_iff in H. destruct H as [H|H].
        -- apply Ascii.eqb_eq in H. now subst.
        -- now apply Hp.
Qed.

Lemma split_spaces_head :
  forall c s,
    JS.isStrWhiteSpaceChar c = false ->
    exists p ps,
      Badge.split_spaces false s = p :: ps /\
      Badge.split_spaces false (String c s) = String c p :: ps.
Proof.
  intros c s Hc. simpl. rewrite Hc.
  destruct (Badge.split_spaces false s) as [|p ps] eqn:E.
  - now apply split_spaces_nonempty in E.
  - eauto.
Qed.

Lemma split_spaces_later_pieces :
  forall s b,
    Badge.trimEnd s = s ->
    Forall (fun w => w <> EmptyString) (tl (Badge.split_spaces b s)).
Proof.
  induction s as [|c s IH]; intros b Hfix; simpl; [constructor|].
  apply trimEnd_fixed_cons in Hfix. destruct Hfix as [Hs Hc].
  destruct (JS.isStrWhiteSpaceChar c) eqn:E.
  - assert (Hne : s <> EmptyString) by (intros ->; specialize (Hc eq_refl); congruence).
    destruct b; [now apply IH|]. simpl.
    pose proof (trimEnd_fixed_trimStart s Hs Hne) as Hts.
    pose proof (IH true Hs) as Hrest.
    rewrite split_spaces_in_run in *.
    destruct (JS.trimStart s) as [|d r] eqn:Ed; [congruence|].
    destruct (split_spaces_head d r (trimStart_head s d r Ed)) as (p & ps & _ & Hsp).
    rewrite Hsp in *. simpl in Hrest. constructor; [discriminate|exact Hrest].
  - specialize (IH false Hs).
    destruct (Badge.split_spaces false s) as [|p ps]; simpl; [constructor|exact IH].
Qed.

Lemma substring_head_two :
  forall c s, exists more,
    substring 0 2 (String c s) = String c more /\ (String.length more <= 1)%nat /\
    forall x, ExportModal.includes x more = true -> ExportModal.includes x s = true.
Proof.
  intros c [|d s].
  - exists EmptyString. simpl. repeat split; [lia|auto].
  - exists (String d EmptyString). repeat split.
    + now destruct s.
    + simpl. lia.
    + intros x H. simpl in *. rewrite orb_false_r in H. now rewrite H.
Qed.

(** X17. The badge shows [?] for an empty name. For any other name it shows
    the upper case of at most two characters, none of them white space: they
    begin with the first character of the name that is not white space, and
    they are no characters at all exactly when the name is white space only. *)
Theorem initials_at_most_two :
  forall (toUpperCase : string -> string) name,
    (name = "" -> Badge.initials toUpperCase name = Some "?")
    /\ (name <> "" ->
        exists letters,
          Badge.initials toUpperCase name = Some (toUpperCase letters)
          /\ (String.length letters <= 2)%nat
          /\ (forall c, ExportModal.includes c letters = true ->
                        JS.isStrWhiteSpaceChar c = false)
          /\ (letters = "" <-> Badge.trim name = "")
          /\ (forall c rest, JS.trimStart name = String c rest ->
                             exists more, letters = String c more)).
Proof.
  intros toUpperCase name. split; [intros ->; reflexivity|].
  intros Hne. unfold Badge.initials.
  destruct name as [|n0 nrest]; [congruence|]. cbn [JS.truthy negb].
  set (name := String n0 nrest) in *. clearbody name. clear Hne n0 nrest.
  unfold Badge.trim.
  destruct (JS.trimStart name) as [|c r] eqn:Hts.
  - exists EmptyString. simpl. repeat split; auto; try discriminate.
  - pose proof (trimStart_head name c r Hts) as Hc.
    rewrite (trimEnd_cons c r Hc).
    pose proof (split_spaces_no_space (String c (Badge.trimEnd r)) false) as Hns.
    pose proof (split_spaces_later_pieces (String c (Badge.trimEnd r)) false) as Hlater.
    rewrite <- (trimEnd_cons c r Hc), trimEnd_idempotent, (trimEnd_cons c r Hc) in Hlater.
    specialize (Hlater eq_refl).
    destruct (split_spaces_head c (Badge.trimEnd r) Hc) as (p & ps & _ & Hsp).
    rewrite Hsp in *. simpl in Hlater.
    inversion Hns as [|? ? Hp Hps]; subst.
    destruct ps as [|w1 ps].
    + cbn [List.length Nat.eqb nth_error option_map].
      destruct (substring_head_two c p) as (more & Hsub & Hlen & Hinc).
      exists (String c more). rewrite Hsub. repeat split.
      * simpl. lia.
      * intros x H. simpl in H. apply orb_true_iff in H. destruct H as [H|H].
        -- apply Ascii.eqb_eq in H. now subst.
        -- apply Hp. simpl. rewrite (Hinc x H). apply orb_true_r.
      * discriminate.
      * discriminate.
      * intros c' rest' E. inversion E; subst. eauto.
    + inversion Hlater as [|? ? Hw1 _]; subst.
      inversion Hps as [|? ? Hw1ns _]; subst.
      destruct w1 as [|c1 w1]; [congruence|].
      exists (String c (String c1 EmptyString)). simpl. repeat split.
      * lia.
      * intros x H. rewrite orb_false_r in H. apply orb_true_iff in H.
        destruct H as [H|H]; apply Ascii.eqb_eq in H; subst; [exact Hc|].
        apply Hw1ns. simpl. now rewrite Ascii.eqb_refl.
      * discriminate.
      * discriminate.
      * intros c' rest' E. inversion E; subst. eauto.
Qed.

(** A name of three words with white space around it. *)
Lemma initials_at_most_two_witness :
  exists letters,
    Badge.initials (fun s => s) " john  smith jr" = Some letters
    /\ (String.length letters <= 2)%nat.
Proof.
  destruct (proj2 (initials_at_most_two (fun s => s) " john  smith jr")
              ltac:(discriminate)) as (letters & Hi & Hlen & _).
  exists letters. split; [exact Hi|exact Hlen].
Defined.

(* ================================================================== *)
(** ** settings.vue: deleting a category *)
(* ================================================================== *)

(** X18. Once a category is confirmed for deletion, the handler calls
    [deleteCategory] only if the category's id is a Number other than 0 and
    [NaN], and then once. The dialog closes, with the selection cleared and a
    success toast, exactly when that call succeeds; when it is rejected the
    dialog stays open on the same category and an error toast carries the
    error text. Without a usable id nothing changes. *)
Theorem onDeleteCategory_closes_on_success :
  forall (DB : Type) (deleteCategory : JS.number -> DB -> DB * option string)
         category (st : Settings.Page DB),
    let confirmed := Settings.confirmDeleteCategory DB category st in
    let after := Settings.onDeleteCategory DB deleteCategory confirmed in
    (match ExportModal.cat_id category with
     | Some id => Settings.truthy_number id = false
     | None => True
     end -> after = confirmed)
    /\ (forall id,
          ExportModal.cat_id category = Some id ->
          Settings.truthy_number id = true ->
          Settings.deleteCalls DB after = (Settings.deleteCalls DB st ++ [id])%list
          /\ (Settings.isDeleteCategoryModalOpen DB after = false <->
              snd (deleteCategory id (Settings.store DB st)) = None)
          /\ (snd (deleteCategory id (Settings.store DB st)) = None ->
              Settings.categoryToDelete DB after = None /\
              Settings.toasts DB after
              = (Settings.toasts DB st ++
                 [{| Settings.title := "Category deleted";
                     Settings.description := None;
                     Settings.color := "success" |}])%list)
          /\ (forall e,
                snd (deleteCategory id (Settings.store DB st)) = Some e ->
                Settings.isDeleteCategoryModalOpen DB after = true /\
                Settings.categoryToDelete DB after = Some category /\
                Settings.toasts DB after
                = (Settings.toasts DB st ++
                   [{| Settings.title := "Error";
                       Settings.description := Some e;
                       Settings.color := "error" |}])%list))
    /\ (Settings.categoryToDelete DB st = None ->
        Settings.onDeleteCategory DB deleteCategory st = st).
Proof.
  intros DB deleteCategory category st confirmed after. subst after confirmed.
  unfold Settings.onDeleteCategory, Settings.confirmDeleteCategory. simpl.
  repeat apply conj.
  - destruct (ExportModal.cat_id category) as [id|]; [|reflexivity].
    now intros ->.
  - intros id Hid Hok. rewrite Hid, Hok. simpl.
    destruct (deleteCategory id (Settings.store DB st)) as [d [e|]]; simpl.
    + repeat apply conj; try reflexivity; try discriminate.
      intros e' H. now inversion H.
    + repeat apply conj; try reflexivity; try discriminate.
      intros _. split; reflexivity.
  - intros Hnone. now rewrite Hnone.
Qed.

(* ================================================================== *)
(** ** The statements above on concrete inputs *)
(* ================================================================== *)

(** A series labelled Jan, Jan, Feb: position 2 is a tick. *)
Lemma uniqueMonthIndices_first_occurrences_witness :
  In 2%nat
    (uniqueMonthIndices
       (chartData (fun d => substring 5 2 d)
          [snapshot "2024-01" 10 0 10; snapshot "2025-01" 20 0 20;
           snapshot "2025-02" 30 0 30]%float)).
Proof.
  apply (proj1 (proj2 (uniqueMonthIndices_first_occurrences
                         (chartData (fun d => substring 5 2 d)
                            [snapshot "2024-01" 10 0 10; snapshot "2025-01" 20 0 20;
                             snapshot "2025-02" 30 0 30]%float)))).
  eexists. split; [reflexivity|].
  intros [|[|j]] d' Hj Hd'; [| |lia]; inversion Hd'; subst d'; discriminate.
Defined.

(** One category, Cash, with id 1, and nothing excluded. *)
Lemma toggleCategory_flips_one_id_witness :
  ExportModal.isCategoryExcluded
    [{| ExportModal.cat_id := Some 1%float; ExportModal.cat_name := "Cash" |}]
    (ExportModal.toggleCategory
       [{| ExportModal.cat_id := Some 1%float; ExportModal.cat_name := "Cash" |}]
       "Cash"
       {| ExportModal.isModalOpen := true; ExportModal.showExcludeOptions := true;
          ExportModal.excludedCategoryIds := NumberSet.empty;
          ExportModal.excludedAccountIds := StringSet.empty |})
    "Cash"
  = true.
Proof.
  exact (proj1 (proj1 (proj2 (toggleCategory_flips_one_id
                                [{| ExportModal.cat_id := Some 1%float;
                                    ExportModal.cat_name := "Cash" |}]
                                {| ExportModal.isModalOpen := true;
                                   ExportModal.showExcludeOptions := true;
                                   ExportModal.excludedCategoryIds := NumberSet.empty;
                                   ExportModal.excludedAccountIds := StringSet.empty |}
                                "Cash"))
                      1%float eq_refl)).
Defined.

(** Two accounts and no exclusion. *)
Lemma filteredAccounts_spec_witness :
  ExportModal.filteredAccounts
    [ {| ExportModal.id := "1"; ExportModal.name := "Checking";
         ExportModal.bank := "First"; ExportModal.category := "Cash";
         ExportModal.owner := "me"; ExportModal.latestBalance := 100%float |};
      {| ExportModal.id := "2"; ExportModal.name := "Broker";
         ExportModal.bank := "Second"; ExportModal.category := "Stocks";
         ExportModal.owner := "joint"; ExportModal.latestBalance := 900%float |} ]
    [ {| ExportModal.cat_id := Some 1%float; ExportModal.cat_name := "Cash" |} ]
    {| ExportModal.isModalOpen := true; ExportModal.showExcludeOptions := false;
       ExportModal.excludedCategoryIds := NumberSet.empty;
       ExportModal.excludedAccountIds := StringSet.empty |}
  = [ {| ExportModal.id := "1"; ExportModal.name := "Checking";
         ExportModal.bank := "First"; ExportModal.category := "Cash";
         ExportModal.owner := "me"; ExportModal.latestBalance := 100%float |};
      {| ExportModal.id := "2"; ExportModal.name := "Broker";
         ExportModal.bank := "Second"; ExportModal.category := "Stocks";
         ExportModal.owner := "joint"; ExportModal.latestBalance := 900%float |} ].
Proof.
  refine (proj1 (proj2 (proj2 (proj2 (filteredAccounts_spec _ _ _)))) _ _);
    reflexivity.
Defined.

(** Two accounts of the category Cash around one of the category Stocks. *)
Lemma accountsByCategory_groups_witness :
  option_map (ExportModal.own "Cash")
    (ExportModal.accountsByCategory
       [ {| ExportModal.id := "1"; ExportModal.name := "Checking";
            ExportModal.bank := "First"; ExportModal.category := "Cash";
            ExportModal.owner := "me"; ExportModal.latestBalance := 100%float |};
         {| ExportModal.id := "2"; ExportModal.name := "Broker";
            ExportModal.bank := "Second"; ExportModal.category := "Stocks";
            ExportModal.owner := "joint"; ExportModal.latestBalance := 900%float |};
         {| ExportModal.id := "3"; ExportModal.name := "Savings";
            ExportModal.bank := "First"; ExportModal.category := "Cash";
            ExportModal.owner := "spouse"; ExportModal.latestBalance := 50%float |} ])
  = Some (Some
      [ {| ExportModal.id := "1"; ExportModal.name := "Checking";
           ExportModal.bank := "First"; ExportModal.category := "Cash";
           ExportModal.owner := "me"; ExportModal.latestBalance := 100%float |};
        {| ExportModal.id := "3"; ExportModal.name := "Savings";
           ExportModal.bank := "First"; ExportModal.category := "Cash";
           ExportModal.owner := "spouse"; ExportModal.latestBalance := 50%float |} ]).
Proof.
  exact (f_equal Some
           (proj2 (accountsByCategory_groups
                     [ {| ExportModal.id := "1"; ExportModal.name := "Checking";
                          ExportModal.bank := "First"; ExportModal.category := "Cash";
                          ExportModal.owner := "me";
                          ExportModal.latestBalance := 100%float |};
                       {| ExportModal.id := "2"; ExportModal.name := "Broker";
                          ExportModal.bank := "Second"; ExportModal.category := "Stocks";
                          ExportModal.owner := "joint";
                          ExportModal.latestBalance := 900%float |};
                       {| ExportModal.id := "3"; ExportModal.name := "Savings";
                          ExportModal.bank := "First"; ExportModal.category := "Cash";
                          ExportModal.owner := "spouse";
                          ExportModal.latestBalance := 50%float |} ])
                  _ eq_refl "Cash")).
Defined.

(** A field with a comma. *)
Lemma escapeCsvField_injective_witness :
  exists body,
    ExportModal.escapeCsvField "Smith, John"
    = String ExportModal.dquote (body ++ String ExportModal.dquote EmptyString)
    /\ body = ExportModal.double_quotes "Smith, John".
Proof.
  apply (proj2 (proj2 escapeCsvField_injective) "Smith, John").
  intros H. discriminate H.
Defined.

(** A table of three categories from which the one with id 3 is deleted. *)
Lemma onDeleteCategory_closes_on_success_witness :
  Settings.isDeleteCategoryModalOpen (list JS.number)
    (Settings.onDeleteCategory (list JS.number)
       (fun id table => (NumberSet.delete id table, None))
       (Settings.confirmDeleteCategory (list JS.number)
          {| ExportModal.cat_id := Some 3%float; ExportModal.cat_name := "Cash" |}
          {| Settings.categoryToDelete := None;
             Settings.isDeleteCategoryModalOpen := false;
             Settings.toasts := [];
             Settings.store := [1; 2; 3]%float;
             Settings.deleteCalls := [] |}))
  = false.
Proof.
  apply (proj1 (proj2 (proj1 (proj2
           (onDeleteCategory_closes_on_success (list JS.number)
              (fun id table => (NumberSet.delete id table, None))
              {| ExportModal.cat_id := Some 3%float; ExportModal.cat_name := "Cash" |}
              {| Settings.categoryToDelete := None;
                 Settings.isDeleteCategoryModalOpen := false;
                 Settings.toasts := [];
                 Settings.store := [1; 2; 3]%float;
                 Settings.deleteCalls := [] |}))
           3%float eq_refl eq_refl))).
  reflexivity.
Defined.
